(** * The derivation core of mobx: src/core/derivation.ts

    A shallow embedding of the notification protocol
    ([notifyDependencyStale], [notifyDependencyReady]), of the dependency
    tracker ([trackDerivedFunction], [bindDependencies]), of the cycle
    detector ([findCycle]) and of the two evaluation-context queries
    ([isComputingDerivation], [checkIfStateModificationsAreAllowed]).

    JavaScript objects live in a store indexed by references; the functions
    of the file are computations over that store, the global state and the
    sequence of calls made to the collaborators of the other modules. *)

From stdpp Require Import base numbers option list relations gmap strings.

Open Scope string_scope.
Open Scope list_scope.
Open Scope Z_scope.

(** ** Data model *)

(** An object reference. [indexOf] and [===] on objects compare references. *)
Definition loc := nat.
Bind Scope nat_scope with loc.

(** Calls that leave this file: [reportTransition] (api/extras),
    [propagateStaleness], [propagateReadiness], [addObserver],
    [removeObserver] (core/observable) and the derivation's own
    [onDependenciesReady] method.  They are recorded in call order. *)
Inductive event : Type :=
  | ReportTransition (node : loc) (state : string) (changed : option bool)
  | PropagateStaleness (observable : loc)
  | PropagateReadiness (observable : loc) (valueDidActuallyChange : bool)
  | OnDependenciesReady (derivation : loc)
  | AddObserver (observable : loc) (node : loc)
  | RemoveObserver (observable : loc) (node : loc).

#[global] Instance event_eq_dec : EqDecision event.
Proof. solve_decision. Defined.

(** The fields of [IDerivation] that derivation.ts reads or writes.
    [observing] is [None] for an observable that has no such field (a plain
    atom); the counters are JavaScript numbers that only ever move by one,
    kept here as integers.  [onDependenciesReady] answers from the calls
    made so far, so that two runs of the same body may answer differently. *)
Record IDerivation : Type := mkDerivation {
  observing : option (list loc);
  dependencyStaleCount : Z;
  dependencyChangeCount : Z;
  onDependenciesReady : list event -> bool
}.

#[global] Instance IDerivation_inhabited : Inhabited IDerivation :=
  populate (mkDerivation None 0 0 (λ _, false)).

Definition set_observing (o : option (list loc)) (n : IDerivation) : IDerivation :=
  mkDerivation o (dependencyStaleCount n) (dependencyChangeCount n) (onDependenciesReady n).

Definition set_dependencyStaleCount (c : Z) (n : IDerivation) : IDerivation :=
  mkDerivation (observing n) c (dependencyChangeCount n) (onDependenciesReady n).

Definition set_dependencyChangeCount (c : Z) (n : IDerivation) : IDerivation :=
  mkDerivation (observing n) (dependencyStaleCount n) c (onDependenciesReady n).

(** The store, [globalState.derivationStack] (top of the stack last, as
    [push] leaves it), [globalState.allowStateChanges], and the collaborator
    calls made so far. *)
Record world : Type := mkWorld {
  heap : gmap loc IDerivation;
  derivationStack : list loc;
  allowStateChanges : bool;
  trace : list event
}.

Definition set_heap (h : gmap loc IDerivation) (w : world) : world :=
  mkWorld h (derivationStack w) (allowStateChanges w) (trace w).

Definition set_derivationStack (s : list loc) (w : world) : world :=
  mkWorld (heap w) s (allowStateChanges w) (trace w).

Definition set_trace (t : list event) (w : world) : world :=
  mkWorld (heap w) (derivationStack w) (allowStateChanges w) t.

(** ** Computations: state, exceptions, unbounded recursion *)

Inductive error : Type :=
  | InvariantFailed (message : string)
  | RangeError (message : string).

#[global] Instance error_eq_dec : EqDecision error.
Proof. solve_decision. Defined.

(** A call returns, throws, or exhausts the recursion budget given to
    [findCycle] (a recursion without end, which an engine cuts short when
    its call stack is full). A throw keeps every write made before it. *)
Inductive completion (A : Type) : Type :=
  | Normal (a : A)
  | Throw (e : error)
  | Diverge.
Arguments Normal {A} a.
Arguments Throw {A} e.
Arguments Diverge {A}.

Definition M (A : Type) : Type := world -> completion A * world.

#[global] Instance M_ret : MRet M := λ A a w, (Normal a, w).

#[global] Instance M_bind : MBind M := λ A B k m w,
  match m w with
  | (Normal a, w') => k a w'
  | (Throw e, w') => (Throw e, w')
  | (Diverge, w') => (Diverge, w')
  end.

Definition throw {A} (e : error) : M A := λ w, (Throw e, w).

Definition getNode (d : loc) : M IDerivation := λ w, (Normal (heap w !!! d), w).

Definition modifyNode (d : loc) (f : IDerivation -> IDerivation) : M unit :=
  λ w, (Normal tt, set_heap (<[d := f (heap w !!! d)]> (heap w)) w).

Definition emit (e : event) : M unit :=
  λ w, (Normal tt, set_trace (trace w ++ [e]) w).

(** The state a call leaves behind, and how it completed. *)
Definition exec {A} (m : M A) (w : world) : world := (m w).2.
Definition outcome {A} (m : M A) (w : world) : completion A := (m w).1.

(** ** Collaborators *)

(** Modelled from the spec: [invariant] of utils/utils is not part of the
    sources at hand; every failure of the core is an aborted operation
    raised where the check is made, carrying the message of the call. *)
Definition invariant (check : bool) (message : string) : M unit :=
  if check then mret tt else throw (InvariantFailed message).

Definition ProtocolViolation : error :=
  InvariantFailed "unexpected ready notification".

Definition CycleDetected : error := InvariantFailed "Cycle detected".

Definition IllegalMutation : error :=
  InvariantFailed "It is not allowed to change the state when a computed value is being evaluated. Use 'autorun' to create reactive functions with side-effects. Or use 'extras.allowStateChanges(true, block)' to supress this message.".

Definition reportTransition (node : loc) (state : string) (changed : option bool) : M unit :=
  emit (ReportTransition node state changed).

Definition propagateStaleness (observable : loc) : M unit :=
  emit (PropagateStaleness observable).

Definition propagateReadiness (observable : loc) (valueDidActuallyChange : bool) : M unit :=
  emit (PropagateReadiness observable valueDidActuallyChange).

Definition addObserver (observable node : loc) : M unit :=
  emit (AddObserver observable node).

Definition removeObserver (observable node : loc) : M unit :=
  emit (RemoveObserver observable node).

(** [derivation.onDependenciesReady()]: the call is recorded and the
    method's answer returned. *)
Definition callOnDependenciesReady (derivation : loc) : M bool :=
  λ w, (Normal (onDependenciesReady (heap w !!! derivation) (trace w)),
        set_trace (trace w ++ [OnDependenciesReady derivation]) w).

(** Modelled from the spec: [quickDiff] of utils/utils is not part of the
    sources at hand; it computes the set difference both ways,
    added = current minus base and removed = base minus current. *)
Definition quickDiff (current base : list loc) : list loc * list loc :=
  (filter (λ x, x ∉ base) current, filter (λ x, x ∉ current) base).

(** ** Evaluation context *)

Definition isComputingDerivation : M bool :=
  λ w, (Normal (bool_decide (0 < length (derivationStack w))%nat), w).

Definition checkIfStateModificationsAreAllowed : M unit :=
  λ w, invariant (allowStateChanges w) "It is not allowed to change the state when a computed value is being evaluated. Use 'autorun' to create reactive functions with side-effects. Or use 'extras.allowStateChanges(true, block)' to supress this message." w.

(** ** Notification protocol *)

Definition notifyDependencyStale (derivation : loc) : M unit :=
  n ← getNode derivation;
  let count := dependencyStaleCount n + 1 in
  modifyNode derivation (set_dependencyStaleCount count);;
  if count =? 1 then
    reportTransition derivation "STALE" None;;
    propagateStaleness derivation
  else mret tt.

Definition notifyDependencyReady (derivation : loc) (dependencyDidChange : bool) : M unit :=
  n ← getNode derivation;
  invariant (0 <? dependencyStaleCount n) "unexpected ready notification";;
  (if dependencyDidChange then
     modifyNode derivation (λ n, set_dependencyChangeCount (dependencyChangeCount n + 1) n)
   else mret tt);;
  n ← getNode derivation;
  let count := dependencyStaleCount n - 1 in
  modifyNode derivation (set_dependencyStaleCount count);;
  if count =? 0 then
    n ← getNode derivation;
    if 0 <? dependencyChangeCount n then
      modifyNode derivation (set_dependencyChangeCount 0);;
      reportTransition derivation "PENDING" None;;
      changed ← callOnDependenciesReady derivation;
      propagateReadiness derivation changed
    else
      reportTransition derivation "READY" (Some false);;
      propagateReadiness derivation false
  else mret tt.

(** ** Cycle detector *)

(** One frame of [findCycle] per unit of [fuel]; [None] when the recursion
    is deeper than [fuel]. The scan of [obs] stops at the first [true]. *)
Fixpoint findCycle_scan (rec : loc -> option bool) (obs : list loc) : option bool :=
  match obs with
  | [] => Some false
  | o :: rest =>
      match rec o with
      | None => None
      | Some true => Some true
      | Some false => findCycle_scan rec rest
      end
  end.

Fixpoint findCycle (fuel : nat) (h : gmap loc IDerivation) (needle node : loc) : option bool :=
  match fuel with
  | O => None
  | S fuel' =>
      match observing (h !!! node) with
      | None => Some false
      | Some obs =>
          if bool_decide (node ∈ obs) then Some true
          else findCycle_scan (findCycle fuel' h needle) obs
      end
  end.

(** ** Dependency tracker *)

(** [globalState.derivationStack.length -= 1]: drops the top of the stack;
    on an empty array the new length is -1, which JavaScript refuses. *)
Definition popDerivationStack : M unit :=
  λ w, match derivationStack w with
       | [] => (Throw (RangeError "Invalid array length"), w)
       | _ :: _ => (Normal tt, set_derivationStack (removelast (derivationStack w)) w)
       end.

Definition findCycleM (fuel : nat) (needle node : loc) : M bool :=
  λ w, match findCycle fuel (heap w) needle node with
       | Some b => (Normal b, w)
       | None => (Diverge, w)
       end.

Fixpoint bindAdded (fuel : nat) (derivation : loc) (added : list loc) : M unit :=
  match added with
  | [] => mret tt
  | dependency :: rest =>
      cyclic ← findCycleM fuel derivation dependency;
      invariant (negb cyclic) "Cycle detected";;
      addObserver dependency derivation;;
      bindAdded fuel derivation rest
  end.

Fixpoint bindRemoved (derivation : loc) (removed : list loc) : M unit :=
  match removed with
  | [] => mret tt
  | r :: rest => removeObserver r derivation;; bindRemoved derivation rest
  end.

(** An [observing] field that is absent counts as the empty list. *)
Definition observingList (o : option (list loc)) : list loc := default [] o.

Definition bindDependencies (fuel : nat) (derivation : loc) (prevObserving : option (list loc)) : M unit :=
  popDerivationStack;;
  n ← getNode derivation;
  let '(added, removed) := quickDiff (observingList (observing n)) (observingList prevObserving) in
  bindAdded fuel derivation added;;
  bindRemoved derivation removed.

Definition pushDerivationStack (derivation : loc) : M unit :=
  λ w, (Normal tt, set_derivationStack (derivationStack w ++ [derivation]) w).

Definition trackDerivedFunction {T} (fuel : nat) (derivation : loc) (f : M T) : M T :=
  n ← getNode derivation;
  let prevObserving := observing n in
  modifyNode derivation (set_observing (Some []));;
  pushDerivationStack derivation;;
  result ← f;
  bindDependencies fuel derivation prevObserving;;
  mret result.

(** ** Reading the counters of a derivation *)

Definition staleCount (w : world) (d : loc) : Z := dependencyStaleCount (heap w !!! d).
Definition changeCount (w : world) (d : loc) : Z := dependencyChangeCount (heap w !!! d).

(** The calls a computation added to the trace, given that the trace only
    grows: what is left after the first [length (trace w)] entries. *)
Definition emitted (w w' : world) : list event := drop (length (trace w)) (trace w').

Definition isBodyRun (d : loc) (e : event) : bool :=
  match e with
  | OnDependenciesReady n => Nat.eqb n d
  | _ => false
  end.

Definition isReport (d : loc) (state : string) (e : event) : bool :=
  match e with
  | ReportTransition n s _ => Nat.eqb n d && String.eqb s state
  | _ => false
  end.

Definition isReadinessPropagation (d : loc) (e : event) : bool :=
  match e with
  | PropagateReadiness n _ => Nat.eqb n d
  | _ => false
  end.

Definition count (p : event -> bool) (t : list event) : nat := length (List.filter p t).

(** A protocol call made by the graph walker. *)
Inductive call : Type :=
  | Stale (derivation : loc)
  | Ready (derivation : loc) (dependencyDidChange : bool).

Definition perform (c : call) : M unit :=
  match c with
  | Stale d => notifyDependencyStale d
  | Ready d b => notifyDependencyReady d b
  end.

(** A sequence of calls; a call that throws is abandoned and the next one
    runs in the state the throw left. *)
Definition performAll (cs : list call) (w : world) : world :=
  foldl (λ w c, exec (perform c) w) w cs.

(** The node after the counting part of a ready call. *)
Definition counted (b : bool) (n : IDerivation) : IDerivation :=
  set_dependencyStaleCount (dependencyStaleCount n - 1)
    (if b then set_dependencyChangeCount (dependencyChangeCount n + 1) n else n).

(** ** Sample states *)

(** D observes A and B (objects 1 and 2); nothing is in flight. *)
Definition w_two_sources : world :=
  mkWorld {[ 3%nat := mkDerivation (Some [1%nat; 2%nat]) 0 0 (λ _, true) ]} [] true [].

(** As above, with one stale dependency still to settle. *)
Definition w_ready_unchanged : world :=
  mkWorld {[ 7%nat := mkDerivation (Some [1%nat; 2%nat]) 1 0 (λ _, true) ]} [] true [].

(** No derivation is being computed and state changes are switched off. *)
Definition w_idle_locked : world := mkWorld ∅ [] false [].


(** ** The dependency graph *)

(** [edge h a b]: [b] is in the [observing] list of [a]. *)
Definition edge (h : gmap loc IDerivation) (a b : loc) : Prop :=
  ∃ obs, observing (h !!! a) = Some obs ∧ b ∈ obs.

(** No node that [node] reaches, [node] included, lies on a cycle. *)
Definition acyclicFrom (h : gmap loc IDerivation) (node : loc) : Prop :=
  ∀ m, rtc (edge h) node m -> ¬ tc (edge h) m m.

(** M (object 1) observes D (object 0), which observes nothing. *)
Definition h_chain : gmap loc IDerivation :=
  {[ 0%nat := mkDerivation (Some []) 0 0 (λ _, false);
     1%nat := mkDerivation (Some [0%nat]) 0 0 (λ _, false) ]}.

(** X (object 2) lists itself; D (object 0) observes nothing. *)
Definition h_loop : gmap loc IDerivation :=
  {[ 0%nat := mkDerivation (Some []) 0 0 (λ _, false);
     2%nat := mkDerivation (Some [2%nat]) 0 0 (λ _, false) ]}.

(** D (object 0) observes M (object 1) and M observes D. *)
Definition h_two_cycle : gmap loc IDerivation :=
  {[ 0%nat := mkDerivation (Some [1%nat]) 0 0 (λ _, false);
     1%nat := mkDerivation (Some [0%nat]) 0 0 (λ _, false) ]}.

(** The diamond: S (object 0) is an atom, M1 and M2 (objects 1 and 2)
    observe S, and D (object 3) observes M1 and M2. *)
Definition h_diamond : gmap loc IDerivation :=
  {[ 1%nat := mkDerivation (Some [0%nat]) 0 0 (λ _, true);
     2%nat := mkDerivation (Some [0%nat]) 0 0 (λ _, true);
     3%nat := mkDerivation (Some [1%nat; 2%nat]) 0 0 (λ _, true) ]}.

(** ** Tracking: the states in between *)

(** Where [trackDerivedFunction] starts the body: [observing] of the
    derivation emptied, the derivation on top of the stack. *)
Definition started (d : loc) (w : world) : world :=
  mkWorld (<[d := set_observing (Some []) (heap w !!! d)]> (heap w))
          (derivationStack w ++ [d]) (allowStateChanges w) (trace w).

(** Where [bindDependencies] ends when entered in [w]: the top of the stack
    dropped and [events] appended to the trace. *)
Definition bound (w : world) (events : list event) : world :=
  mkWorld (heap w) (removelast (derivationStack w)) (allowStateChanges w)
          (trace w ++ events).

Definition addedEvents (d : loc) (added : list loc) : list event :=
  map (λ s, AddObserver s d) added.

Definition removedEvents (d : loc) (removed : list loc) : list event :=
  map (λ s, RemoveObserver s d) removed.

(** A body that reads [sources] in turn while [d] is being tracked: each
    source read appends itself to [d.observing]. *)
Definition readSources (d : loc) (sources : list loc) : M unit :=
  modifyNode d (λ n, set_observing (Some (observingList (observing n) ++ sources)) n).

(** D (object 5) observed A and B (objects 1 and 2) on its last run. *)
Definition w_conditional : world :=
  mkWorld {[ 5%nat := mkDerivation (Some [1%nat; 2%nat]) 0 0 (λ _, true) ]} [] true [].

(** D (object 0) observed A (object 1) on its last run. *)
Definition w_before_self_read : world :=
  mkWorld {[ 0%nat := mkDerivation (Some [1%nat]) 0 0 (λ _, true) ]} [] true [].

(** D (object 0) has just read B (object 2) and then itself. *)
Definition w_self_read : world :=
  mkWorld {[ 0%nat := mkDerivation (Some [2%nat; 0%nat]) 0 0 (λ _, true) ]} [0%nat] true [].

(** D (object 0) has read itself again, as on its last run. *)
Definition w_self_read_again : world :=
  mkWorld {[ 0%nat := mkDerivation (Some [0%nat]) 0 0 (λ _, true) ]} [0%nat] true [].

(** D (object 0) has just read M (object 1), which observes D. *)
Definition w_two_cycle : world := mkWorld h_two_cycle [0%nat] true [].

(** ** Further notions used to state what the code keeps *)

(** Every stale count and change count is non-negative, and a derivation
    that waits for no dependency has counted no change. *)
Definition countersConsistent (w : world) : Prop :=
  ∀ d, 0 <= staleCount w d ∧ 0 <= changeCount w d
       ∧ (staleCount w d = 0 -> changeCount w d = 0).

(** The derivation a protocol call is made on. *)
Definition target (c : call) : loc :=
  match c with
  | Stale d => d
  | Ready d _ => d
  end.

(** The object a collaborator call is made for. *)
Definition subject (e : event) : loc :=
  match e with
  | ReportTransition n _ _ => n
  | PropagateStaleness n => n
  | PropagateReadiness n _ => n
  | OnDependenciesReady n => n
  | AddObserver _ n => n
  | RemoveObserver _ n => n
  end.

Definition isEdgeEvent (e : event) : bool :=
  match e with
  | AddObserver _ _ | RemoveObserver _ _ => true
  | _ => false
  end.


(** How many calls of [cs] tell [d] that a dependency is ready and changed. *)
Definition changedCalls (d : loc) (cs : list call) : nat :=
  length (List.filter (λ c, match c with
                            | Ready d' true => Nat.eqb d' d
                            | _ => false
                            end) cs).

(** A body that leaves the derivation stack as it found it whenever it
    returns. *)
Definition keepsStack {T} (f : M T) : Prop :=
  ∀ w v w1, f w = (Normal v, w1) -> derivationStack w1 = derivationStack w.

(** A body that throws at once. *)
Definition failingBody (e : error) : M unit := throw e.
(** ** What each protocol call does *)

Ltac unfold_M :=
  unfold mbind, M_bind, mret, M_ret, getNode, modifyNode, emit, throw, invariant,
    reportTransition, propagateStaleness, propagateReadiness, addObserver,
    removeObserver, callOnDependenciesReady, set_trace, set_heap,
    set_derivationStack in *; cbn in *.

Ltac case_ltb :=
  match goal with
  | |- context [0 <? ?x] => destruct (Z.ltb_spec 0 x); try lia
  end.

Ltac case_eqb :=
  match goal with
  | |- context [?x =? ?y] => destruct (Z.eqb_spec x y); try lia
  end.

Lemma notifyDependencyStale_run d w :
  notifyDependencyStale d w =
  (Normal tt,
   mkWorld (<[d := set_dependencyStaleCount (staleCount w d + 1) (heap w !!! d)]> (heap w))
           (derivationStack w) (allowStateChanges w)
           (trace w ++ if staleCount w d =? 0
                       then [ReportTransition d "STALE" None; PropagateStaleness d]
                       else [])).
Proof.
  unfold notifyDependencyStale, staleCount. unfold_M.
  destruct (Z.eqb_spec (dependencyStaleCount (heap w !!! d) + 1) 1) as [E|E];
    destruct (Z.eqb_spec (dependencyStaleCount (heap w !!! d)) 0) as [E'|E']; try lia; unfold_M.
  - by rewrite <- app_assoc.
  - by rewrite app_nil_r.
Qed.

Lemma notifyDependencyReady_underflow d b w :
  staleCount w d <= 0 ->
  notifyDependencyReady d b w = (Throw ProtocolViolation, w).
Proof.
  intros H. unfold notifyDependencyReady, staleCount in *. unfold_M.
  case_ltb. done.
Qed.

Lemma notifyDependencyReady_waiting d b w :
  1 < staleCount w d ->
  notifyDependencyReady d b w =
  (Normal tt, set_heap (<[d := counted b (heap w !!! d)]> (heap w)) w).
Proof.
  intros H. unfold notifyDependencyReady, staleCount, counted in *. unfold_M.
  case_ltb; unfold_M.
  destruct b; unfold_M; rewrite ?lookup_total_insert_eq; cbn; case_eqb;
    unfold_M; by rewrite ?insert_insert_eq.
Qed.

Lemma notifyDependencyReady_unchanged d (b : bool) w :
  staleCount w d = 1 ->
  changeCount w d + (if b then 1 else 0) <= 0 ->
  notifyDependencyReady d b w =
  (Normal tt,
   mkWorld (<[d := counted b (heap w !!! d)]> (heap w))
           (derivationStack w) (allowStateChanges w)
           (trace w ++ [ReportTransition d "READY" (Some false); PropagateReadiness d false])).
Proof.
  intros H C. unfold notifyDependencyReady, staleCount, changeCount, counted in *. unfold_M.
  case_ltb; unfold_M.
  destruct b; unfold_M; rewrite ?lookup_total_insert_eq; cbn; rewrite H;
    change (1 - 1 =? 0) with true; unfold_M;
    rewrite ?lookup_total_insert_eq; cbn; case_ltb;
    unfold_M; rewrite ?insert_insert_eq, <- ?app_assoc, ?H; done.
Qed.

Lemma notifyDependencyReady_changed d (b : bool) w :
  staleCount w d = 1 ->
  0 < changeCount w d + (if b then 1 else 0) ->
  notifyDependencyReady d b w =
  (Normal tt,
   mkWorld (<[d := set_dependencyChangeCount 0 (counted b (heap w !!! d))]> (heap w))
           (derivationStack w) (allowStateChanges w)
           (trace w ++ [ReportTransition d "PENDING" None;
                        OnDependenciesReady d;
                        PropagateReadiness d
                          (onDependenciesReady (heap w !!! d)
                             (trace w ++ [ReportTransition d "PENDING" None]))])).
Proof.
  intros H C. unfold notifyDependencyReady, staleCount, changeCount, counted in *. unfold_M.
  case_ltb; unfold_M.
  destruct b; unfold_M; rewrite ?lookup_total_insert_eq; cbn; rewrite H;
    change (1 - 1 =? 0) with true; unfold_M;
    rewrite ?lookup_total_insert_eq; cbn; case_ltb;
    unfold_M; rewrite ?lookup_total_insert_eq, ?insert_insert_eq, <- ?app_assoc, ?H; cbn; done.
Qed.

Lemma staleCount_after_stale d d' w :
  staleCount (exec (notifyDependencyStale d) w) d' =
  if decide (d = d') then staleCount w d + 1 else staleCount w d'.
Proof.
  unfold exec. rewrite notifyDependencyStale_run. unfold staleCount. cbn.
  case_decide; subst.
  - by rewrite lookup_total_insert_eq.
  - by rewrite lookup_total_insert_ne.
Qed.

Lemma staleCount_after_ready d d' b w :
  staleCount (exec (notifyDependencyReady d b) w) d' =
  if decide (d = d')
  then (if 0 <? staleCount w d then staleCount w d - 1 else staleCount w d)
  else staleCount w d'.
Proof.
  unfold exec.
  destruct (Z.ltb_spec 0 (staleCount w d)) as [Hpos|Hneg].
  - destruct (decide (staleCount w d = 1)) as [H1|H1].
    + destruct (Z.ltb_spec 0 (changeCount w d + (if b then 1 else 0))).
      * rewrite notifyDependencyReady_changed by done. unfold staleCount, counted. cbn.
        case_decide; subst; [by rewrite lookup_total_insert_eq | by rewrite lookup_total_insert_ne].
      * rewrite notifyDependencyReady_unchanged by done. unfold staleCount, counted. cbn.
        case_decide; subst; [by rewrite lookup_total_insert_eq | by rewrite lookup_total_insert_ne].
    + rewrite notifyDependencyReady_waiting by lia. unfold staleCount, counted. cbn.
      case_decide; subst; [by rewrite lookup_total_insert_eq | by rewrite lookup_total_insert_ne].
  - rewrite notifyDependencyReady_underflow by done. cbn. by case_decide; subst.
Qed.

Lemma perform_keeps_stale_nonneg c w :
  (∀ d, 0 <= staleCount w d) -> ∀ d, 0 <= staleCount (exec (perform c) w) d.
Proof.
  intros Hw d'. destruct c as [d|d b]; cbn.
  - rewrite staleCount_after_stale. case_decide; [specialize (Hw d); lia | apply Hw].
  - rewrite staleCount_after_ready. case_decide; [|apply Hw].
    specialize (Hw d). destruct (Z.ltb_spec 0 (staleCount w d)); lia.
Qed.

Lemma performAll_keeps_stale_nonneg cs w :
  (∀ d, 0 <= staleCount w d) -> ∀ d, 0 <= staleCount (performAll cs w) d.
Proof.
  revert w. induction cs as [|c cs IH]; intros w Hw; cbn; [done|].
  apply IH. by apply perform_keeps_stale_nonneg.
Qed.

(** ** Stale notifications *)

(** C6: [notifyDependencyStale] always returns, adds one to
    [dependencyStaleCount] and changes nothing else in the store or in the
    global state; it reports "STALE" and calls [propagateStaleness], once
    each, exactly when the count was 0 before the call, and makes no
    collaborator call at all otherwise. *)
Theorem stale_forwarded_on_first_only (d : loc) (w : world) :
  let w' := exec (notifyDependencyStale d) w in
  outcome (notifyDependencyStale d) w = Normal tt
  ∧ staleCount w' d = staleCount w d + 1
  ∧ heap w' = <[d := set_dependencyStaleCount (staleCount w d + 1) (heap w !!! d)]> (heap w)
  ∧ derivationStack w' = derivationStack w
  ∧ allowStateChanges w' = allowStateChanges w
  ∧ trace w' = trace w ++
      (if bool_decide (staleCount w d = 0)
       then [ReportTransition d "STALE" None; PropagateStaleness d]
       else []).
Proof.
  cbn. unfold exec, outcome. rewrite notifyDependencyStale_run. cbn.
  repeat split.
  - unfold staleCount at 1. cbn. by rewrite lookup_total_insert_eq.
  - f_equal. case_bool_decide as E.
    + by rewrite E.
    + by destruct (Z.eqb_spec (staleCount w d) 0).
Qed.

(** ** Ready notifications *)

(** C7: a ready call that takes [dependencyStaleCount] from 1 to 0 while
    [dependencyChangeCount], with this call's own contribution counted, is
    0 returns without running the body: it reports "READY" with
    changed = false, calls [propagateReadiness] with false, and makes no
    other collaborator call. *)
Theorem ready_without_change_skips_body (d : loc) (b : bool) (w : world) :
  staleCount w d = 1 ->
  changeCount w d + (if b then 1 else 0) = 0 ->
  let w' := exec (notifyDependencyReady d b) w in
  outcome (notifyDependencyReady d b) w = Normal tt
  ∧ staleCount w' d = 0
  ∧ trace w' = trace w ++ [ReportTransition d "READY" (Some false); PropagateReadiness d false]
  ∧ count (isBodyRun d) (emitted w w') = 0%nat.
Proof.
  intros H C. cbn. unfold exec, outcome, emitted.
  rewrite notifyDependencyReady_unchanged by lia. cbn.
  repeat split.
  - unfold staleCount, counted in *. cbn. rewrite lookup_total_insert_eq. cbn. lia.
  - by rewrite drop_app_length.
Qed.

Lemma ready_without_change_skips_body_witness :
  let w' := exec (notifyDependencyReady 7 false) w_ready_unchanged in
  outcome (notifyDependencyReady 7 false) w_ready_unchanged = Normal tt
  ∧ staleCount w' 7 = 0
  ∧ trace w' = trace w_ready_unchanged ++
      [ReportTransition 7 "READY" (Some false); PropagateReadiness 7 false]
  ∧ count (isBodyRun 7) (emitted w_ready_unchanged w') = 0%nat.
Proof.
  apply (ready_without_change_skips_body 7 false w_ready_unchanged); reflexivity.
Defined.

(** C1: a derivation with both counters at 0 that is told twice that a
    dependency is stale and then twice that a dependency is ready and did
    change: the stale count is 2 after the stale calls, 1 after the first
    ready call and 0 after the second; the change count is 1 after the
    first ready call and back to 0 after the second; the first ready call
    makes no collaborator call; the second reports "PENDING", runs the body
    and propagates readiness with the body's answer. Over the four calls
    the body runs once, "PENDING" is reported once and readiness is
    propagated once. *)
Theorem two_changes_one_run (d : loc) (w : world) :
  staleCount w d = 0 ->
  changeCount w d = 0 ->
  let w1 := exec (notifyDependencyStale d) w in
  let w2 := exec (notifyDependencyStale d) w1 in
  let w3 := exec (notifyDependencyReady d true) w2 in
  let w4 := exec (notifyDependencyReady d true) w3 in
  let changed :=
    onDependenciesReady (heap w !!! d)
      (trace w ++ [ReportTransition d "STALE" None; PropagateStaleness d;
                   ReportTransition d "PENDING" None]) in
  (outcome (notifyDependencyStale d) w = Normal tt
   ∧ outcome (notifyDependencyStale d) w1 = Normal tt
   ∧ outcome (notifyDependencyReady d true) w2 = Normal tt
   ∧ outcome (notifyDependencyReady d true) w3 = Normal tt)
  ∧ (staleCount w2 d = 2 ∧ staleCount w3 d = 1 ∧ staleCount w4 d = 0)
  ∧ (changeCount w2 d = 0 ∧ changeCount w3 d = 1 ∧ changeCount w4 d = 0)
  ∧ emitted w2 w3 = []
  ∧ emitted w3 w4 =
      [ReportTransition d "PENDING" None; OnDependenciesReady d;
       PropagateReadiness d changed]
  ∧ trace w4 = trace w ++
      [ReportTransition d "STALE" None; PropagateStaleness d;
       ReportTransition d "PENDING" None; OnDependenciesReady d;
       PropagateReadiness d changed]
  ∧ count (isBodyRun d) (emitted w w4) = 1%nat
  ∧ count (isReport d "PENDING") (emitted w w4) = 1%nat
  ∧ count (isReadinessPropagation d) (emitted w w4) = 1%nat.
Proof.
  intros Hs Hc w1 w2 w3 w4 changed.
  assert (E1 : notifyDependencyStale d w = (Normal tt, w1))
    by (unfold w1, exec; by rewrite notifyDependencyStale_run).
  assert (S1 : staleCount w1 d = 1).
  { unfold w1. rewrite staleCount_after_stale, decide_True by done. lia. }
  assert (E2 : notifyDependencyStale d w1 = (Normal tt, w2))
    by (unfold w2, exec; by rewrite (notifyDependencyStale_run d w1)).
  assert (S2 : staleCount w2 d = 2).
  { unfold w2. rewrite staleCount_after_stale, decide_True by done. lia. }
  assert (C2 : changeCount w2 d = 0).
  { unfold w2, w1, exec. rewrite !notifyDependencyStale_run. unfold changeCount in *. cbn.
    rewrite !lookup_total_insert_eq. cbn. done. }
  assert (E3 : notifyDependencyReady d true w2 =
               (Normal tt, set_heap (<[d := counted true (heap w2 !!! d)]> (heap w2)) w2))
    by (apply notifyDependencyReady_waiting; lia).
  assert (W3 : w3 = set_heap (<[d := counted true (heap w2 !!! d)]> (heap w2)) w2)
    by (unfold w3, exec; by rewrite E3).
  assert (S3 : staleCount w3 d = 1).
  { unfold w3. rewrite staleCount_after_ready, decide_True by done.
    rewrite S2. done. }
  assert (C3 : changeCount w3 d = 1).
  { rewrite W3. unfold changeCount, counted in *. cbn. rewrite lookup_total_insert_eq. cbn. lia. }
  assert (T2 : trace w2 = trace w ++ [ReportTransition d "STALE" None; PropagateStaleness d]).
  { unfold w2, exec. rewrite notifyDependencyStale_run. cbn. fold (exec (notifyDependencyStale d) w).
    fold w1. rewrite S1. cbn. rewrite app_nil_r.
    unfold w1, exec. rewrite notifyDependencyStale_run. cbn. by rewrite Hs. }
  assert (T3 : trace w3 = trace w2) by (by rewrite W3).
  assert (B3 : onDependenciesReady (heap w3 !!! d) = onDependenciesReady (heap w !!! d)).
  { rewrite W3. cbn. rewrite lookup_total_insert_eq. unfold counted. cbn.
    unfold w2, w1, exec. rewrite !notifyDependencyStale_run. cbn.
    by rewrite !lookup_total_insert_eq. }
  assert (E4 : notifyDependencyReady d true w3 = (Normal tt, w4)).
  { unfold w4, exec. rewrite (notifyDependencyReady_changed d true w3) by lia. reflexivity. }
  assert (T4 : trace w4 = trace w3 ++
            [ReportTransition d "PENDING" None; OnDependenciesReady d;
             PropagateReadiness d changed]).
  { unfold w4, exec. rewrite (notifyDependencyReady_changed d true w3) by lia. cbn.
    unfold changed. rewrite B3, T3, T2, <- !app_assoc. reflexivity. }
  assert (S4 : staleCount w4 d = 0).
  { unfold w4. rewrite staleCount_after_ready, decide_True by done. rewrite S3. done. }
  assert (C4 : changeCount w4 d = 0).
  { unfold w4, exec. rewrite (notifyDependencyReady_changed d true w3) by lia.
    unfold changeCount. cbn. by rewrite lookup_total_insert_eq. }
  assert (T : trace w4 = trace w ++
      [ReportTransition d "STALE" None; PropagateStaleness d;
       ReportTransition d "PENDING" None; OnDependenciesReady d;
       PropagateReadiness d changed]).
  { rewrite T4, T3, T2, <- app_assoc. done. }
  assert (Em : emitted w w4 =
      [ReportTransition d "STALE" None; PropagateStaleness d;
       ReportTransition d "PENDING" None; OnDependenciesReady d;
       PropagateReadiness d changed]).
  { unfold emitted. rewrite T. by rewrite drop_app_length. }
  unfold outcome. rewrite E1, E2, E3, E4. cbn.
  repeat split; try done.
  - unfold emitted. rewrite T3. by rewrite drop_all.
  - unfold emitted. rewrite T4. by rewrite drop_app_length.
  - rewrite Em. unfold count. cbn. by rewrite Nat.eqb_refl.
  - rewrite Em. unfold count. cbn. by rewrite Nat.eqb_refl.
  - rewrite Em. unfold count. cbn. by rewrite Nat.eqb_refl.
Qed.

Lemma two_changes_one_run_witness :
  staleCount w_two_sources 3 = 0
  ∧ changeCount w_two_sources 3 = 0
  ∧ trace (performAll [Stale 3; Stale 3; Ready 3 true; Ready 3 true] w_two_sources) =
      [ReportTransition 3 "STALE" None; PropagateStaleness 3;
       ReportTransition 3 "PENDING" None; OnDependenciesReady 3;
       PropagateReadiness 3 true]
  ∧ count (isBodyRun 3)
      (emitted w_two_sources
         (performAll [Stale 3; Stale 3; Ready 3 true; Ready 3 true] w_two_sources)) = 1%nat.
Proof.
  destruct (two_changes_one_run 3 w_two_sources eq_refl eq_refl)
    as (_ & _ & _ & _ & _ & T & B & _).
  split; [reflexivity|]. split; [reflexivity|]. split; [exact T | exact B].
Defined.

(** C4: a ready call on a derivation whose [dependencyStaleCount] is 0
    throws the "unexpected ready notification" failure and leaves the whole
    state, the counters included, as it was; and from a state in which no
    stale count is negative, no sequence of stale and ready calls, on any
    derivations and whether or not some of them throw, leads to a state
    with a negative stale count. *)
Theorem ready_underflow_rejected (w : world) :
  (∀ d b, staleCount w d = 0 ->
     notifyDependencyReady d b w = (Throw ProtocolViolation, w))
  ∧ ((∀ d, 0 <= staleCount w d) ->
     ∀ cs d, 0 <= staleCount (performAll cs w) d).
Proof.
  split.
  - intros d b H. apply notifyDependencyReady_underflow. lia.
  - intros Hw cs d. by apply performAll_keeps_stale_nonneg.
Qed.

Lemma stale_nonneg_w_two_sources d : 0 <= staleCount w_two_sources d.
Proof.
  unfold staleCount, w_two_sources. cbn.
  destruct (decide (d = 3%nat)) as [->|Hd].
  - by rewrite lookup_total_singleton_eq.
  - by rewrite lookup_total_singleton_ne.
Qed.

Lemma ready_underflow_rejected_witness :
  notifyDependencyReady 3 true w_two_sources = (Throw ProtocolViolation, w_two_sources)
  ∧ 0 <= staleCount (performAll [Ready 3 true; Stale 3; Ready 3 false; Ready 3 false] w_two_sources) 3.
Proof.
  destruct (ready_underflow_rejected w_two_sources) as [H1 H2].
  split.
  - apply H1. reflexivity.
  - apply H2. exact stale_nonneg_w_two_sources.
Defined.

(** ** The mutation guard *)

(** C3, as the code has it: [checkIfStateModificationsAreAllowed] throws
    the state-change failure exactly when [allowStateChanges] is false and
    returns otherwise; the derivation stack is not consulted, and the state
    is left as it was either way. *)
Theorem mutation_guard_follows_flag (w : world) :
  checkIfStateModificationsAreAllowed w =
    (if allowStateChanges w then Normal tt else Throw IllegalMutation, w)
  ∧ (outcome checkIfStateModificationsAreAllowed w = Throw IllegalMutation
     ↔ allowStateChanges w = false).
Proof.
  unfold outcome, checkIfStateModificationsAreAllowed, invariant.
  destruct (allowStateChanges w); cbn; split; try done.
Qed.

(** C3 as stated fails here: the stack is empty, yet the guard throws. *)
Lemma mutation_guard_ignores_stack :
  ¬ (outcome checkIfStateModificationsAreAllowed w_idle_locked = Throw IllegalMutation
     ↔ outcome isComputingDerivation w_idle_locked = Normal true
       ∧ allowStateChanges w_idle_locked = false).
Proof. intros [H _]. by destruct H. Qed.

(** ** The cycle detector *)

Lemma findCycle_scan_false rec obs :
  (∀ o, o ∈ obs -> rec o = Some false) -> findCycle_scan rec obs = Some false.
Proof.
  induction obs as [|o obs IH]; intros H; cbn; [done|].
  rewrite (H o) by set_solver. apply IH. intros; apply H; set_solver.
Qed.

Lemma findCycle_scan_false_inv rec obs :
  findCycle_scan rec obs = Some false -> ∀ o, o ∈ obs -> rec o = Some false.
Proof.
  induction obs as [|o obs IH]; intros H x Hx; [by apply elem_of_nil in Hx|].
  cbn in H. destruct (rec o) as [[]|] eqn:E; try done.
  apply elem_of_cons in Hx as [->|Hx]; [done|by apply IH].
Qed.

Lemma findCycle_scan_true rec obs :
  findCycle_scan rec obs = Some true -> ∃ o, o ∈ obs ∧ rec o = Some true.
Proof.
  induction obs as [|o obs IH]; intros H; [done|].
  cbn in H. destruct (rec o) as [[]|] eqn:E; try done.
  - exists o. split; [|done]. apply elem_of_cons. by left.
  - destruct (IH H) as (x & Hx & Ex). exists x. split; [|done].
    apply elem_of_cons. by right.
Qed.

Lemma findCycle_scan_ext rec rec' obs :
  (∀ o, o ∈ obs -> rec o = rec' o) -> findCycle_scan rec obs = findCycle_scan rec' obs.
Proof.
  induction obs as [|o obs IH]; intros H; cbn; [done|].
  rewrite <- (H o) by set_solver. destruct (rec o) as [[]|]; try done.
  apply IH. intros; apply H; set_solver.
Qed.

(** The needle takes no part in the answer. *)
Lemma findCycle_needle_irrelevant fuel h needle needle' node :
  findCycle fuel h needle node = findCycle fuel h needle' node.
Proof.
  revert node. induction fuel as [|fuel IH]; intros node; cbn; [done|].
  destruct (observing (h !!! node)) as [obs|]; [|done].
  case_bool_decide; [done|]. apply findCycle_scan_ext. intros; apply IH.
Qed.

Section graph.
Context (h : gmap loc IDerivation) (needle : loc).

(** A node without an [observing] list is answered [false] at once. *)
Lemma findCycle_leaf fuel node :
  observing (h !!! node) = None -> findCycle (S fuel) h needle node = Some false.
Proof. intros H. cbn. by rewrite H. Qed.

Lemma findCycle_scan_mono (rec rec' : loc -> option bool) obs b :
  (∀ o c, rec o = Some c -> rec' o = Some c) ->
  findCycle_scan rec obs = Some b -> findCycle_scan rec' obs = Some b.
Proof.
  intros Hrec. induction obs as [|o obs IH]; cbn; [done|].
  destruct (rec o) as [[]|] eqn:E; try done; rewrite (Hrec _ _ E); [done|apply IH].
Qed.

(** An answer found within some depth is found within any greater depth. *)
Lemma findCycle_mono fuel fuel' node b :
  (fuel <= fuel')%nat ->
  findCycle fuel h needle node = Some b -> findCycle fuel' h needle node = Some b.
Proof.
  revert fuel' node b. induction fuel as [|fuel IH]; intros fuel' node b Hle; [done|].
  destruct fuel' as [|fuel']; [lia|]. cbn.
  destruct (observing (h !!! node)) as [obs|]; [|done].
  case_bool_decide; [done|]. apply findCycle_scan_mono.
  intros o c. apply IH. lia.
Qed.

(** What a [true] answer means: some node reached from [node] lists itself. *)
Lemma findCycle_true_self_listed fuel node :
  findCycle fuel h needle node = Some true ->
  ∃ m, rtc (edge h) node m ∧ edge h m m.
Proof.
  revert node. induction fuel as [|fuel IH]; intros node H; [done|].
  cbn in H. destruct (observing (h !!! node)) as [obs|] eqn:Eobs; [|done].
  case_bool_decide as Hin.
  - exists node. split; [done|]. by exists obs.
  - apply findCycle_scan_true in H as (o & Ho & Hrec).
    destruct (IH _ Hrec) as (m & Hreach & Hself).
    exists m. split; [|done]. eapply rtc_l; [|exact Hreach]. by exists obs.
Qed.

Lemma edge_in_dom a b : edge h a b -> a ∈ dom h.
Proof.
  intros (obs & Hobs & _). apply elem_of_dom.
  rewrite lookup_total_alt in Hobs. destruct (h !! a); [done|]. done.
Qed.

Lemma acyclicFrom_step a b : acyclicFrom h a -> edge h a b -> acyclicFrom h b.
Proof. intros Ha Hab m Hm. apply Ha. by eapply rtc_l. Qed.

(** On a graph without cycles below [node] the recursion is never deeper
    than the number of objects that have not yet been entered, and the
    answer is [false]. [V] holds the nodes whose frames are open. *)
Lemma findCycle_acyclic_within fuel :
  ∀ node (V : gset loc),
    acyclicFrom h node ->
    (∀ v, v ∈ V -> tc (edge h) v node) ->
    V ⊆ dom h ->
    (size (dom h ∖ V) < fuel)%nat ->
    findCycle fuel h needle node = Some false.
Proof.
  induction fuel as [|fuel IH]; intros node V Hac HV Hdom Hsize; [lia|].
  cbn. destruct (observing (h !!! node)) as [obs|] eqn:Eobs; [|done].
  assert (Hnode : ∀ o, o ∈ obs -> edge h node o) by (intros; by exists obs).
  case_bool_decide as Hin.
  { exfalso. apply (Hac node); [done|]. apply tc_once. by apply Hnode. }
  apply findCycle_scan_false. intros o Ho.
  assert (HnV : node ∉ V).
  { intros Hv. apply (Hac node); [done|]. by apply HV. }
  assert (Hnd : node ∈ dom h) by (eapply edge_in_dom; by apply Hnode).
  apply (IH o (V ∪ {[node]})).
  - eapply acyclicFrom_step; [done|by apply Hnode].
  - intros v [Hv| ->%elem_of_singleton]%elem_of_union.
    + eapply tc_r; [by apply HV|by apply Hnode].
    + apply tc_once. by apply Hnode.
  - apply union_least; [done|]. by apply singleton_subseteq_l.
  - assert (Hless : dom h ∖ (V ∪ {[node]}) ⊂ dom h ∖ V).
    { split.
      - intros x [Hx Hn]%elem_of_difference. apply elem_of_difference.
        split; [done|]. intros Hv. apply Hn, elem_of_union. by left.
      - intros Hsub. assert (Hmem : node ∈ dom h ∖ V) by (by apply elem_of_difference).
        apply Hsub, elem_of_difference in Hmem as [_ Hn].
        apply Hn, elem_of_union. right. by apply elem_of_singleton. }
    apply subset_size in Hless. lia.
Qed.

Lemma findCycle_acyclic_false node fuel :
  acyclicFrom h node ->
  (size h < fuel)%nat ->
  findCycle fuel h needle node = Some false.
Proof.
  intros Hac Hfuel. apply (findCycle_acyclic_within fuel node ∅); try done.
  rewrite difference_empty_L, size_dom. done.
Qed.

(** A ranking that every edge decreases rules out cycles. *)
Lemma ranked_acyclic (rank : loc -> nat) node :
  (∀ a b, edge h a b -> (rank b < rank a)%nat) -> acyclicFrom h node.
Proof.
  intros Hrank m _ Hcyc.
  assert (H : ∀ a b, tc (edge h) a b -> (rank b < rank a)%nat).
  { intros a b Hab. induction Hab as [a b Hab|a b c Hab _ IH].
    - by apply Hrank.
    - apply Hrank in Hab. lia. }
  apply H in Hcyc. lia.
Qed.

(** C10: on a store whose [observing] edges form no cycle among the nodes
    reachable from [node], [findCycle] returns: every recursion budget
    above the number of stored objects yields one and the same answer. *)
Theorem findCycle_terminates_when_acyclic (node : loc) :
  acyclicFrom h node ->
  ∃ b, ∀ fuel, (size h < fuel)%nat -> findCycle fuel h needle node = Some b.
Proof.
  intros Hac. exists false. intros fuel Hfuel. by apply findCycle_acyclic_false.
Qed.

End graph.

Lemma h_diamond_edges_descend a b : edge h_diamond a b -> (b < a)%nat.
Proof.
  intros (obs & Hobs & Hb). unfold h_diamond in Hobs.
  destruct (decide (a = 1%nat)) as [->|N1].
  { vm_compute in Hobs. injection Hobs as <-. apply list_elem_of_singleton in Hb. lia. }
  destruct (decide (a = 2%nat)) as [->|N2].
  { vm_compute in Hobs. injection Hobs as <-. apply list_elem_of_singleton in Hb. lia. }
  destruct (decide (a = 3%nat)) as [->|N3].
  { vm_compute in Hobs. injection Hobs as <-.
    apply elem_of_cons in Hb as [->|Hb]; [lia|]. apply list_elem_of_singleton in Hb. lia. }
  rewrite !lookup_total_insert_ne, lookup_total_singleton_ne in Hobs by done. done.
Qed.

Lemma h_diamond_acyclic node : acyclicFrom h_diamond node.
Proof. apply (ranked_acyclic h_diamond id). apply h_diamond_edges_descend. Qed.

Lemma findCycle_terminates_when_acyclic_witness :
  acyclicFrom h_diamond 3
  ∧ ∃ b, ∀ fuel, (size h_diamond < fuel)%nat -> findCycle fuel h_diamond 3 3 = Some b.
Proof.
  split.
  - apply h_diamond_acyclic.
  - apply (findCycle_terminates_when_acyclic h_diamond 3 3). apply h_diamond_acyclic.
Defined.

(** C2, where the code departs from it: M observes D, so D is reachable
    from M along one [observing] edge, and [findCycle] with needle D
    started at M answers [false] at every depth that lets it answer. *)
Theorem findCycle_misses_reachable_needle :
  edge h_chain 1 0
  ∧ tc (edge h_chain) 1%nat 0%nat
  ∧ ∀ fuel, findCycle (S (S fuel)) h_chain 0 1 = Some false.
Proof.
  assert (E : edge h_chain 1 0).
  { exists [0%nat]. split; [reflexivity|]. apply list_elem_of_singleton. done. }
  split; [done|]. split; [by apply tc_once|]. intros fuel. reflexivity.
Qed.

Lemma h_loop_reach m : rtc (edge h_loop) 2%nat m -> m = 2%nat.
Proof.
  revert m. apply rtc_ind_r; [done|].
  intros y z _ (obs & Hobs & Hin) ->. vm_compute in Hobs. injection Hobs as <-.
  by apply list_elem_of_singleton in Hin.
Qed.

(** The converse failure: X lists itself, D is not reachable from X, and
    [findCycle] with needle D started at X answers [true]. *)
Lemma findCycle_flags_foreign_self_listing :
  ¬ rtc (edge h_loop) 2%nat 0%nat ∧ ∀ fuel, findCycle (S fuel) h_loop 0 2 = Some true.
Proof.
  split.
  - intros H. apply h_loop_reach in H. done.
  - intros fuel. reflexivity.
Qed.

(** A cycle through two nodes, neither of which lists itself, is never
    reported: the recursion goes round it until the budget is spent. *)
Lemma findCycle_two_cycle_diverges fuel :
  findCycle fuel h_two_cycle 0 1 = None ∧ findCycle fuel h_two_cycle 0 0 = None.
Proof.
  induction fuel as [|fuel [IH1 IH0]]; [done|].
  split.
  - change (findCycle (S fuel) h_two_cycle 0 1)
      with (findCycle_scan (findCycle fuel h_two_cycle 0) [0%nat]).
    cbn. by rewrite IH0.
  - change (findCycle (S fuel) h_two_cycle 0 0)
      with (findCycle_scan (findCycle fuel h_two_cycle 0) [1%nat]).
    cbn. by rewrite IH1.
Qed.

(** ** Binding *)

Ltac unfold_bind :=
  unfold findCycleM, popDerivationStack, pushDerivationStack in *; unfold_M.

Lemma bindAdded_ok fuel d added w :
  (∀ a, a ∈ added -> findCycle fuel (heap w) d a = Some false) ->
  bindAdded fuel d added w = (Normal tt, set_trace (trace w ++ addedEvents d added) w).
Proof.
  revert w. induction added as [|a added IH]; intros w H; cbn.
  - unfold_M. rewrite app_nil_r. by destruct w.
  - unfold_bind. rewrite (H a) by set_solver. cbn.
    rewrite IH by (intros; apply H; set_solver). cbn.
    by rewrite <- app_assoc.
Qed.

Lemma bindAdded_cycle fuel d installed dep rest w :
  (∀ a, a ∈ installed -> findCycle fuel (heap w) d a = Some false) ->
  findCycle fuel (heap w) d dep = Some true ->
  bindAdded fuel d (installed ++ dep :: rest) w =
  (Throw CycleDetected, set_trace (trace w ++ addedEvents d installed) w).
Proof.
  revert w. induction installed as [|a installed IH]; intros w H Hdep; cbn.
  - unfold_bind. rewrite Hdep. cbn. rewrite app_nil_r. by destruct w.
  - unfold_bind. rewrite (H a) by set_solver. cbn.
    rewrite IH; cbn; [by rewrite <- app_assoc | intros; apply H; set_solver | done].
Qed.

Lemma bindAdded_diverges fuel d installed dep rest w :
  (∀ a, a ∈ installed -> findCycle fuel (heap w) d a = Some false) ->
  findCycle fuel (heap w) d dep = None ->
  outcome (bindAdded fuel d (installed ++ dep :: rest)) w = Diverge.
Proof.
  unfold outcome. revert w. induction installed as [|a installed IH]; intros w H Hdep; cbn.
  - unfold_bind. by rewrite Hdep.
  - unfold_bind. rewrite (H a) by set_solver. cbn.
    apply IH; cbn; [intros; apply H; set_solver | done].
Qed.

Lemma bindRemoved_run d removed w :
  bindRemoved d removed w = (Normal tt, set_trace (trace w ++ removedEvents d removed) w).
Proof.
  revert w. induction removed as [|r removed IH]; intros w; cbn.
  - unfold_M. rewrite app_nil_r. by destruct w.
  - unfold_M. rewrite IH. cbn. by rewrite <- app_assoc.
Qed.


Lemma bindDependencies_ok fuel d prev w :
  derivationStack w ≠ [] ->
  (∀ a, a ∈ (quickDiff (observingList (observing (heap w !!! d))) (observingList prev)).1 ->
        findCycle fuel (heap w) d a = Some false) ->
  bindDependencies fuel d prev w =
  (Normal tt,
   bound w (addedEvents d (quickDiff (observingList (observing (heap w !!! d))) (observingList prev)).1
            ++ removedEvents d (quickDiff (observingList (observing (heap w !!! d))) (observingList prev)).2)).
Proof.
  intros Hstack Hchecks. unfold bindDependencies, bound. unfold_bind.
  destruct (derivationStack w) as [|x stk] eqn:Estk; [done|]. cbn.
  rewrite bindAdded_ok by done. cbn. rewrite bindRemoved_run. cbn.
  by rewrite <- app_assoc.
Qed.

Lemma bindDependencies_cycle fuel d prev w installed dep rest :
  derivationStack w ≠ [] ->
  (quickDiff (observingList (observing (heap w !!! d))) (observingList prev)).1
    = installed ++ dep :: rest ->
  (∀ a, a ∈ installed -> findCycle fuel (heap w) d a = Some false) ->
  findCycle fuel (heap w) d dep = Some true ->
  bindDependencies fuel d prev w = (Throw CycleDetected, bound w (addedEvents d installed)).
Proof.
  intros Hstack Hadded Hchecks Hdep. unfold bindDependencies, bound. unfold_bind.
  destruct (derivationStack w) as [|x stk] eqn:Estk; [done|]. cbn in *.
  rewrite Hadded. rewrite bindAdded_cycle by done. done.
Qed.

Lemma bindDependencies_diverges fuel d prev w installed dep rest :
  derivationStack w ≠ [] ->
  (quickDiff (observingList (observing (heap w !!! d))) (observingList prev)).1
    = installed ++ dep :: rest ->
  (∀ a, a ∈ installed -> findCycle fuel (heap w) d a = Some false) ->
  findCycle fuel (heap w) d dep = None ->
  outcome (bindDependencies fuel d prev) w = Diverge.
Proof.
  intros Hstack Hadded Hchecks Hdep. unfold outcome, bindDependencies. unfold_bind.
  destruct (derivationStack w) as [|x stk] eqn:Estk; [done|]. cbn in *.
  rewrite Hadded.
  pose proof (bindAdded_diverges fuel d installed dep rest
                (mkWorld (heap w) (removelast (x :: stk)) (allowStateChanges w) (trace w))
                Hchecks Hdep) as Hdiv.
  unfold outcome in Hdiv.
  destruct (bindAdded fuel d (installed ++ dep :: rest) _) as [[] ?]; cbn in *; done.
Qed.

(** [trackDerivedFunction], one layer unfolded. *)
Lemma trackDerivedFunction_unfold {T} fuel d (f : M T) w :
  trackDerivedFunction fuel d f w =
  match f (started d w) with
  | (Normal result, w1) =>
      match bindDependencies fuel d (observing (heap w !!! d)) w1 with
      | (Normal _, w2) => (Normal result, w2)
      | (Throw e, w2) => (Throw e, w2)
      | (Diverge, w2) => (Diverge, w2)
      end
  | (Throw e, w1) => (Throw e, w1)
  | (Diverge, w1) => (Diverge, w1)
  end.
Proof.
  unfold trackDerivedFunction, started. unfold_bind.
  destruct (f _) as [[result| |] w1]; try done.
Qed.

Lemma quickDiff_added current base x :
  x ∈ (quickDiff current base).1 ↔ x ∈ current ∧ x ∉ base.
Proof. unfold quickDiff. cbn. rewrite list_elem_of_filter. tauto. Qed.

Lemma quickDiff_removed current base x :
  x ∈ (quickDiff current base).2 ↔ x ∈ base ∧ x ∉ current.
Proof. unfold quickDiff. cbn. rewrite list_elem_of_filter. tauto. Qed.

Lemma addedEvents_elem d added e :
  e ∈ addedEvents d added ↔ ∃ s, e = AddObserver s d ∧ s ∈ added.
Proof. unfold addedEvents. apply list_elem_of_fmap. Qed.

Lemma removedEvents_elem d removed e :
  e ∈ removedEvents d removed ↔ ∃ s, e = RemoveObserver s d ∧ s ∈ removed.
Proof. unfold removedEvents. apply list_elem_of_fmap. Qed.

(** ** Tracking *)

(** A derivation that lists itself is reported at its own frame. *)
Lemma findCycle_self_listed fuel h needle node :
  node ∈ observingList (observing (h !!! node)) ->
  findCycle (S fuel) h needle node = Some true.
Proof.
  intros H. cbn. destruct (observing (h !!! node)) as [obs|]; cbn in H.
  - by rewrite bool_decide_eq_true_2.
  - by apply elem_of_nil in H.
Qed.

Lemma emitted_app w w' es : trace w' = trace w ++ es -> emitted w w' = es.
Proof. intros H. unfold emitted. rewrite H. apply drop_app_length. Qed.

Lemma bindAdded_any fuel d added w :
  ∃ installed,
    installed `prefix_of` added
    ∧ (∀ a, a ∈ installed -> findCycle fuel (heap w) d a = Some false)
    ∧ exec (bindAdded fuel d added) w = set_trace (trace w ++ addedEvents d installed) w
    ∧ (outcome (bindAdded fuel d added) w = Normal tt ∧ installed = added
       ∨ outcome (bindAdded fuel d added) w = Throw CycleDetected
       ∨ outcome (bindAdded fuel d added) w = Diverge).
Proof.
  unfold exec, outcome. revert w. induction added as [|a added IH]; intros w.
  - exists []. split; [done|]. split; [by intros a Ha; apply elem_of_nil in Ha|].
    cbn. unfold_M. rewrite app_nil_r. split; [by destruct w|by left].
  - destruct (findCycle fuel (heap w) d a) as [[]|] eqn:Ea.
    + exists []. split; [apply prefix_nil|]. split; [by intros x Hx; apply elem_of_nil in Hx|].
      cbn. unfold_bind. rewrite Ea. cbn. rewrite app_nil_r. split; [by destruct w|]. right. by left.
    + set (w1 := set_trace (trace w ++ [AddObserver a d]) w).
      destruct (IH w1) as (installed & Hpre & Hchk & Hexec & Hout).
      assert (Hstep : bindAdded fuel d (a :: added) w = bindAdded fuel d added w1).
      { cbn. unfold_bind. by rewrite Ea. }
      exists (a :: installed). split; [by apply prefix_cons|].
      split. { intros x [->|Hx]%elem_of_cons; [done|by apply Hchk]. }
      rewrite Hstep, Hexec. split.
      { unfold w1, set_trace. cbn. by rewrite <- app_assoc. }
      destruct Hout as [[Ho ->]|[Ho|Ho]]; [left|right; left|right; right]; done.
    + exists []. split; [apply prefix_nil|]. split; [by intros x Hx; apply elem_of_nil in Hx|].
      cbn. unfold_bind. rewrite Ea. cbn. rewrite app_nil_r. split; [by destruct w|]. right. by right.
Qed.

Lemma bindDependencies_any fuel d prev w :
  derivationStack w ≠ [] ->
  ∃ installed removed,
    installed `prefix_of` (quickDiff (observingList (observing (heap w !!! d))) (observingList prev)).1
    ∧ (∀ a, a ∈ installed -> findCycle fuel (heap w) d a = Some false)
    ∧ exec (bindDependencies fuel d prev) w =
        bound w (addedEvents d installed ++ removedEvents d removed)
    ∧ (outcome (bindDependencies fuel d prev) w = Normal tt
         ∧ installed = (quickDiff (observingList (observing (heap w !!! d))) (observingList prev)).1
         ∧ removed = (quickDiff (observingList (observing (heap w !!! d))) (observingList prev)).2
       ∨ (outcome (bindDependencies fuel d prev) w = Throw CycleDetected
          ∨ outcome (bindDependencies fuel d prev) w = Diverge) ∧ removed = []).
Proof.
  intros Hstack.
  set (added := (quickDiff (observingList (observing (heap w !!! d))) (observingList prev)).1).
  set (w0 := set_derivationStack (removelast (derivationStack w)) w).
  destruct (bindAdded_any fuel d added w0) as (installed & Hpre & Hchk & Hexec & Hout).
  unfold exec, outcome in *.
  assert (Hbind : bindDependencies fuel d prev w =
    match bindAdded fuel d added w0 with
    | (Normal _, w1) =>
        bindRemoved d (quickDiff (observingList (observing (heap w !!! d))) (observingList prev)).2 w1
    | (Throw e, w1) => (Throw e, w1)
    | (Diverge, w1) => (Diverge, w1)
    end).
  { unfold bindDependencies, added, w0. unfold_bind.
    destruct (derivationStack w) as [|x stk] eqn:Estk; [done|]. cbn. done. }
  rewrite Hbind.
  destruct (bindAdded fuel d added w0) as [[[]| |] w1] eqn:Eadd; cbn in Hexec, Hout; subst w1.
  - destruct Hout as [[_ ->]|[?|?]]; try done.
    exists added, (quickDiff (observingList (observing (heap w !!! d))) (observingList prev)).2.
    split; [done|]. split; [done|]. rewrite bindRemoved_run. cbn.
    split; [by rewrite <- app_assoc|]. by left.
  - exists installed, []. split; [done|]. split; [done|]. cbn. rewrite app_nil_r.
    split; [done|]. right. destruct Hout as [[? _]|[?|?]]; try done. split; [by left|done].
  - exists installed, []. split; [done|]. split; [done|]. cbn. rewrite app_nil_r.
    split; [done|]. right. split; [by right|done].
Qed.

(** C8: [trackDerivedFunction] runs the body from the state in which
    [derivation.observing] is empty and the derivation is on top of the
    stack. When the body returns, leaving a stack that is not empty, the
    top of the stack is dropped exactly once and the store stays as the
    body left it, whatever the binding does next. The sources of the new
    list that are not in the previous one are then taken in order, and
    each is cycle-checked before it is installed: a source gets its
    [addObserver] only if its own check answered [false]; at the first
    source whose check answers [true] the call throws "Cycle detected"
    with only the sources ahead of it installed and nothing removed; a
    check without answer leaves the call without answer; and a new source
    that lists itself in its own [observing] is never installed. When
    every check is negative the call returns the body's value, having made
    [addObserver] for exactly the sources of the new list that are not in
    the previous one and then, after all of them, [removeObserver] for
    exactly the sources of the previous list that are not in the new one;
    a source in both lists gets neither call. If the body left the stack as
    it found it, the stack is back to what it was before the call. *)
Theorem track_then_bind {T} (fuel : nat) (d : loc) (f : M T) (w w1 : world) (v : T) :
  f (started d w) = (Normal v, w1) ->
  derivationStack w1 ≠ [] ->
  let prev := observingList (observing (heap w !!! d)) in
  let new := observingList (observing (heap w1 !!! d)) in
  let added := (quickDiff new prev).1 in
  let removed := (quickDiff new prev).2 in
  let result := outcome (trackDerivedFunction fuel d f) w in
  let w' := exec (trackDerivedFunction fuel d f) w in
  (observing (heap (started d w) !!! d) = Some []
   ∧ derivationStack (started d w) = derivationStack w ++ [d])
  ∧ (derivationStack w' = removelast (derivationStack w1)
     ∧ heap w' = heap w1
     ∧ trace w' = trace w1 ++ emitted w1 w')
  ∧ (∀ s, AddObserver s d ∈ emitted w1 w' -> findCycle fuel (heap w1) d s = Some false)
  ∧ (∀ installed dep rest,
       added = installed ++ dep :: rest ->
       (∀ a, a ∈ installed -> findCycle fuel (heap w1) d a = Some false) ->
       findCycle fuel (heap w1) d dep = Some true ->
       trackDerivedFunction fuel d f w =
         (Throw CycleDetected, bound w1 (addedEvents d installed)))
  ∧ (∀ installed dep rest,
       added = installed ++ dep :: rest ->
       (∀ a, a ∈ installed -> findCycle fuel (heap w1) d a = Some false) ->
       findCycle fuel (heap w1) d dep = None ->
       result = Diverge)
  ∧ (∀ dep, (0 < fuel)%nat -> dep ∈ added ->
       dep ∈ observingList (observing (heap w1 !!! dep)) ->
       result ≠ Normal v ∧ (AddObserver dep d ∉ emitted w1 w'))
  ∧ ((∀ a, a ∈ added -> findCycle fuel (heap w1) d a = Some false) ->
       trackDerivedFunction fuel d f w =
         (Normal v, bound w1 (addedEvents d added ++ removedEvents d removed)))
  ∧ (result = Normal v ->
       emitted w1 w' = addedEvents d added ++ removedEvents d removed
       ∧ (∀ x, AddObserver x d ∈ emitted w1 w' ↔ x ∈ new ∧ x ∉ prev)
       ∧ (∀ x, RemoveObserver x d ∈ emitted w1 w' ↔ x ∈ prev ∧ x ∉ new)
       ∧ (∀ x, x ∈ new -> x ∈ prev ->
            (AddObserver x d ∉ emitted w1 w') ∧ (RemoveObserver x d ∉ emitted w1 w')))
  ∧ (derivationStack w1 = derivationStack (started d w) -> derivationStack w' = derivationStack w).
Proof.
  intros Hf Hstack prev new added removed result w'.
  set (B := bindDependencies fuel d (observing (heap w !!! d)) w1).
  assert (Hrun : trackDerivedFunction fuel d f w =
                 match B with
                 | (Normal _, w2) => (Normal v, w2)
                 | (Throw e, w2) => (Throw e, w2)
                 | (Diverge, w2) => (Diverge, w2)
                 end)
    by (by rewrite trackDerivedFunction_unfold, Hf).
  destruct (bindDependencies_any fuel d (observing (heap w !!! d)) w1 Hstack)
    as (installed0 & removed0 & Hpre & Hchk & Hexec & Hout).
  fold added removed in Hpre, Hout. unfold exec, outcome in Hexec, Hout. fold B in Hexec, Hout.
  assert (Hw' : w' = bound w1 (addedEvents d installed0 ++ removedEvents d removed0)).
  { unfold w', exec. rewrite Hrun, <- Hexec. by destruct B as [[[]| |] w2]. }
  assert (Hres : result = Normal v ↔ B.1 = Normal tt).
  { unfold result, outcome. rewrite Hrun. destruct B as [[[]| |] w2]; cbn; split; done. }
  assert (Hem : emitted w1 w' = addedEvents d installed0 ++ removedEvents d removed0).
  { apply emitted_app. by rewrite Hw'. }
  assert (Hinst : ∀ s, AddObserver s d ∈ emitted w1 w' -> s ∈ installed0).
  { intros s. rewrite Hem. intros [Hs|Hs]%elem_of_app.
    - by apply addedEvents_elem in Hs as (s' & [= <-] & Hs').
    - by apply removedEvents_elem in Hs as (s' & [=] & _). }
  split. { split; [|done]. cbn. by rewrite lookup_total_insert_eq. }
  split. { rewrite Hem, Hw'. done. }
  split. { intros s Hs. by apply Hchk, Hinst. }
  split.
  { intros installed dep rest Hadded Hneg Hpos. rewrite Hrun. unfold B.
    by rewrite (bindDependencies_cycle fuel d _ w1 installed dep rest). }
  split.
  { intros installed dep rest Hadded Hneg Hnone. unfold result, outcome. rewrite Hrun.
    pose proof (bindDependencies_diverges fuel d (observing (heap w !!! d)) w1
                  installed dep rest Hstack Hadded Hneg Hnone) as Hdiv.
    unfold outcome in Hdiv. fold B in Hdiv. destruct B as [[[]| |] w2]; cbn in *; done. }
  split.
  { intros dep Hfuel Hdep Hself.
    assert (Hpos : findCycle fuel (heap w1) d dep = Some true).
    { destruct fuel as [|fuel']; [lia|]. by apply findCycle_self_listed. }
    split.
    - intros Hn. apply Hres in Hn. destruct Hout as [(_ & -> & _)|([Ho|Ho] & _)].
      + apply Hchk in Hdep. congruence.
      + rewrite Hn in Ho. done.
      + rewrite Hn in Ho. done.
    - intros Hin. apply Hinst, Hchk in Hin. congruence. }
  split.
  { intros Hneg. rewrite Hrun. unfold B.
    by rewrite (bindDependencies_ok fuel d (observing (heap w !!! d)) w1). }
  split.
  { intros Hn. apply Hres in Hn. destruct Hout as [(_ & -> & ->)|([Ho|Ho] & _)];
      [|rewrite Hn in Ho; done|rewrite Hn in Ho; done].
    split; [done|]. rewrite Hem.
    assert (Hadd : ∀ x, AddObserver x d ∈ addedEvents d added ++ removedEvents d removed
                        ↔ x ∈ new ∧ x ∉ prev).
    { intros x. rewrite elem_of_app, <- quickDiff_added. fold added. split.
      - intros [Hs|Hs].
        + by apply addedEvents_elem in Hs as (s' & [= <-] & Hs').
        + by apply removedEvents_elem in Hs as (s' & [=] & _).
      - intros Hx. left. apply addedEvents_elem. by exists x. }
    assert (Hrem : ∀ x, RemoveObserver x d ∈ addedEvents d added ++ removedEvents d removed
                        ↔ x ∈ prev ∧ x ∉ new).
    { intros x. rewrite elem_of_app, <- quickDiff_removed. fold removed. split.
      - intros [Hs|Hs].
        + by apply addedEvents_elem in Hs as (s' & [=] & _).
        + by apply removedEvents_elem in Hs as (s' & [= <-] & Hs').
      - intros Hx. right. apply removedEvents_elem. by exists x. }
    split; [done|]. split; [done|].
    intros x Hnew Hprev. split.
    - intros Hx. apply Hadd in Hx. tauto.
    - intros Hx. apply Hrem in Hx. tauto. }
  intros Hkeep. rewrite Hw'. cbn. rewrite Hkeep. cbn. by rewrite removelast_last.
Qed.

Lemma track_then_bind_witness :
  trackDerivedFunction 1 5 (readSources 5 [2%nat; 3%nat]) w_conditional =
    (Normal tt,
     mkWorld {[ 5%nat := mkDerivation (Some [2%nat; 3%nat]) 0 0 (λ _, true) ]} [] true
             [AddObserver 3 5; RemoveObserver 1 5])
  ∧ trackDerivedFunction 1 0 (readSources 0 [2%nat; 0%nat]) w_before_self_read =
    (Throw CycleDetected,
     mkWorld {[ 0%nat := mkDerivation (Some [2%nat; 0%nat]) 0 0 (λ _, true) ]} [] true
             [AddObserver 2 0]).
Proof.
  split.
  - destruct (track_then_bind 1 5 (readSources 5 [2%nat; 3%nat]) w_conditional
                (exec (readSources 5 [2%nat; 3%nat]) (started 5 w_conditional)) tt)
      as (_ & _ & _ & _ & _ & _ & H & _).
    + reflexivity.
    + vm_compute. discriminate.
    + rewrite H; [reflexivity|].
      intros a Ha. vm_compute in Ha. apply list_elem_of_singleton in Ha. subst a. reflexivity.
  - destruct (track_then_bind 1 0 (readSources 0 [2%nat; 0%nat]) w_before_self_read
                (exec (readSources 0 [2%nat; 0%nat]) (started 0 w_before_self_read)) tt)
      as (_ & _ & _ & H & _).
    + reflexivity.
    + vm_compute. discriminate.
    + rewrite (H [2%nat] 0%nat []); [reflexivity|reflexivity| |reflexivity].
      intros a Ha. apply list_elem_of_singleton in Ha. subst a. reflexivity.
Defined.

(** C9: [trackDerivedFunction] returns [r] exactly when the body, started
    with [observing] emptied and the derivation pushed, returns [r] and the
    binding that follows returns; the state is then the one the binding
    left. So the value returned is always the body's. *)
Theorem track_returns_body_result {T} (fuel : nat) (d : loc) (f : M T) (w w' : world) (r : T) :
  trackDerivedFunction fuel d f w = (Normal r, w')
  ↔ ∃ w1, f (started d w) = (Normal r, w1)
          ∧ bindDependencies fuel d (observing (heap w !!! d)) w1 = (Normal tt, w').
Proof.
  rewrite trackDerivedFunction_unfold. split.
  - destruct (f (started d w)) as [[result| |] w1]; try done.
    destruct (bindDependencies fuel d _ w1) as [[[]| |] w2] eqn:Eb; try done.
    intros [= -> ->]. by exists w1.
  - intros (w1 & -> & ->). done.
Qed.

(** ** Rejected bindings *)

(** The first source of [l] whose check is positive, given that every
    check returns. *)
Lemma first_positive (check : loc -> option bool) (l : list loc) x :
  x ∈ l -> check x = Some true ->
  (∀ a, a ∈ l -> check a ≠ None) ->
  ∃ installed dep rest,
    l = installed ++ dep :: rest
    ∧ (∀ a, a ∈ installed -> check a = Some false)
    ∧ check dep = Some true.
Proof.
  induction l as [|y l IH]; intros Hx Hpos Hret; [by apply elem_of_nil in Hx|].
  destruct (check y) as [[]|] eqn:Ey.
  - exists [], y, l. split; [done|]. split; [|done]. intros a Ha. by apply elem_of_nil in Ha.
  - apply elem_of_cons in Hx as [->|Hx]; [congruence|].
    destruct (IH Hx Hpos) as (installed & dep & rest & -> & Hinst & Hdep).
    { intros a Ha. apply Hret, elem_of_cons. by right. }
    exists (y :: installed), dep, rest. split; [done|]. split; [|done].
    intros a [->|Ha]%elem_of_cons; [done|by apply Hinst].
  - exfalso. apply (Hret y); [|done]. apply elem_of_cons. by left.
Qed.

(** C5, as the code has it: the derivation has read itself for the first
    time (it is in its new [observing] list and was not in the previous
    one), the stack is not empty and every cycle check of the binding
    returns. Then the binding throws "Cycle detected" at the first newly
    observed source [dep] whose check is positive; [dep] and the sources
    after it get no [addObserver], nothing gets a [removeObserver], the
    newly observed sources ahead of [dep] have each got their
    [addObserver], the top of the stack has been dropped, and the store,
    with the new [observing] list of the derivation in it, stays as the
    body left it. *)
Theorem self_reference_rejected (fuel : nat) (d : loc) (prev : option (list loc)) (w : world) :
  derivationStack w ≠ [] ->
  d ∈ observingList (observing (heap w !!! d)) ->
  d ∉ observingList prev ->
  let added := (quickDiff (observingList (observing (heap w !!! d))) (observingList prev)).1 in
  (∀ a, a ∈ added -> findCycle (S fuel) (heap w) d a ≠ None) ->
  ∃ installed dep rest,
    added = installed ++ dep :: rest
    ∧ (∀ a, a ∈ installed -> findCycle (S fuel) (heap w) d a = Some false)
    ∧ findCycle (S fuel) (heap w) d dep = Some true
    ∧ (dep ∉ installed)
    ∧ bindDependencies (S fuel) d prev w =
        (Throw CycleDetected, bound w (addedEvents d installed))
    ∧ (∀ s, s ∈ dep :: rest -> s ∉ installed ->
         AddObserver s d ∉ emitted w (exec (bindDependencies (S fuel) d prev) w))
    ∧ (∀ s, RemoveObserver s d ∉ emitted w (exec (bindDependencies (S fuel) d prev) w))
    ∧ heap (exec (bindDependencies (S fuel) d prev) w) = heap w.
Proof.
  intros Hstack Hself Hnew added Hret.
  assert (Hd : d ∈ added) by (apply quickDiff_added; done).
  destruct (first_positive (findCycle (S fuel) (heap w) d) added d Hd
              (findCycle_self_listed fuel (heap w) d d Hself) Hret)
    as (installed & dep & rest & Hadded & Hinst & Hdep).
  exists installed, dep, rest.
  assert (Hrun : bindDependencies (S fuel) d prev w =
                 (Throw CycleDetected, bound w (addedEvents d installed)))
    by (by apply (bindDependencies_cycle (S fuel) d prev w installed dep rest)).
  assert (Hem : emitted w (exec (bindDependencies (S fuel) d prev) w) = addedEvents d installed).
  { unfold emitted, exec. rewrite Hrun. cbn. by rewrite drop_app_length. }
  split; [done|]. split; [done|]. split; [done|].
  split. { intros Hin. apply Hinst in Hin. congruence. }
  split; [done|]. rewrite Hem. split; [|split].
  - intros s _ Hs Hin. apply addedEvents_elem in Hin as (s' & [= <-] & Hs'). done.
  - intros s Hin. apply addedEvents_elem in Hin as (s' & [=] & _).
  - unfold exec. by rewrite Hrun.
Qed.

Lemma self_reference_rejected_witness :
  outcome (bindDependencies 1 0 (Some [1%nat])) w_self_read = Throw CycleDetected
  ∧ (∀ s, RemoveObserver s 0 ∉
            emitted w_self_read (exec (bindDependencies 1 0 (Some [1%nat])) w_self_read))
  ∧ heap (exec (bindDependencies 1 0 (Some [1%nat])) w_self_read) = heap w_self_read.
Proof.
  destruct (self_reference_rejected 0 0 (Some [1%nat]) w_self_read)
    as (installed & dep & rest & _ & _ & _ & _ & Hrun & _ & Hrem & Hheap).
  - vm_compute. discriminate.
  - vm_compute. apply elem_of_cons. right. apply elem_of_cons. by left.
  - vm_compute. intros H. apply list_elem_of_singleton in H. discriminate.
  - intros a Ha. vm_compute in Ha.
    apply elem_of_cons in Ha as [->|Ha]; [vm_compute; discriminate|].
    apply list_elem_of_singleton in Ha as ->. vm_compute. discriminate.
  - split; [|split; [exact Hrem|exact Hheap]].
    unfold outcome. rewrite Hrun. reflexivity.
Defined.

(** C5 as stated fails here. D observed A; on its re-run it reads B and
    then itself. D reaches itself through its new [observing] list and the
    binding throws "Cycle detected", but B has got D as an observer by
    then, and [observing] of D is the new list, D itself included. *)
Lemma self_reference_not_atomic :
  tc (edge (heap w_self_read)) 0%nat 0%nat
  ∧ bindDependencies 1 0 (Some [1%nat]) w_self_read =
      (Throw CycleDetected, mkWorld (heap w_self_read) [] true [AddObserver 2 0])
  ∧ trackDerivedFunction 1 0 (readSources 0 [2%nat; 0%nat]) w_before_self_read =
      (Throw CycleDetected, mkWorld (heap w_self_read) [] true [AddObserver 2 0])
  ∧ trace (exec (bindDependencies 1 0 (Some [1%nat])) w_self_read) ≠ trace w_self_read
  ∧ observing (heap w_before_self_read !!! 0%nat) = Some [1%nat]
  ∧ observing (heap w_self_read !!! 0%nat) = Some [2%nat; 0%nat].
Proof.
  split.
  { apply tc_once. exists [2%nat; 0%nat]. split; [reflexivity|].
    apply elem_of_cons. right. apply elem_of_cons. by left. }
  repeat split; try reflexivity. vm_compute. discriminate.
Qed.

(** A self-reference that is already in the previous list is not a new
    dependency: it is not checked, and the binding returns. *)
Lemma known_self_reference_not_checked fuel :
  tc (edge (heap w_self_read_again)) 0%nat 0%nat
  ∧ bindDependencies fuel 0 (Some [0%nat]) w_self_read_again =
      (Normal tt, mkWorld (heap w_self_read_again) [] true []).
Proof.
  split; [|reflexivity].
  apply tc_once. exists [0%nat]. split; [reflexivity|]. by apply list_elem_of_singleton.
Qed.

(** The transitive case: D has read M, which observes D. No node lists
    itself, so the check of M never answers and the binding neither
    returns nor throws "Cycle detected", whatever the recursion budget. *)
Lemma transitive_cycle_not_detected fuel :
  tc (edge (heap w_two_cycle)) 0%nat 0%nat
  ∧ outcome (bindDependencies fuel 0 (Some [])) w_two_cycle = Diverge.
Proof.
  split.
  { eapply tc_l; [|apply tc_once].
    - exists [1%nat]. split; [reflexivity|]. by apply list_elem_of_singleton.
    - exists [0%nat]. split; [reflexivity|]. by apply list_elem_of_singleton. }
  apply (bindDependencies_diverges fuel 0 (Some []) w_two_cycle [] 1%nat []).
  - done.
  - reflexivity.
  - intros a Ha. by apply elem_of_nil in Ha.
  - apply findCycle_two_cycle_diverges.
Qed.

(** * Further properties of the code *)

(** ** What the answers of the cycle detector mean *)

Lemma findCycle_false_bounds_paths h needle fuel :
  ∀ node, findCycle fuel h needle node = Some false ->
          ∀ n m, nsteps (edge h) n node m -> (n < fuel)%nat.
Proof.
  induction fuel as [|fuel IH]; intros node H n m Hn; [done|].
  cbn in H. destruct (observing (h !!! node)) as [obs|] eqn:Eobs.
  - case_bool_decide; [done|].
    inversion Hn as [|n' x y z (obs' & Hobs' & Hy) Hrest]; subst; [lia|].
    rewrite Eobs in Hobs'. injection Hobs' as <-.
    pose proof (findCycle_scan_false_inv _ _ H y Hy) as Hy'.
    specialize (IH y Hy' _ _ Hrest). lia.
  - inversion Hn as [|n' x y z (obs' & Hobs' & Hy) Hrest]; subst; [lia|].
    rewrite Eobs in Hobs'. done.
Qed.

Lemma cycle_gives_long_paths h node m :
  rtc (edge h) node m -> tc (edge h) m m ->
  ∀ k, ∃ n, (k <= n)%nat ∧ nsteps (edge h) n node m.
Proof.
  intros Hreach Hcyc k.
  apply rtc_nsteps in Hreach as (i & Hi).
  apply tc_nsteps in Hcyc as (j & Hj & Hloop).
  assert (Hrep : ∀ r, nsteps (edge h) (r * j) m m).
  { induction r as [|r IHr]; [constructor|]. cbn. by eapply nsteps_trans. }
  exists (i + k * j)%nat. split; [nia|]. by eapply nsteps_trans.
Qed.

(** X1: [findCycle] answers [false], at some recursion depth, exactly when
    no node reachable from the candidate lies on a cycle of [observing]
    edges; the needle plays no part. *)
Theorem findCycle_false_iff_acyclic (h : gmap loc IDerivation) (needle node : loc) :
  (∃ fuel, findCycle fuel h needle node = Some false) ↔ acyclicFrom h node.
Proof.
  split.
  - intros (fuel & H) m Hreach Hcyc.
    destruct (cycle_gives_long_paths h node m Hreach Hcyc fuel) as (n & Hle & Hn).
    pose proof (findCycle_false_bounds_paths h needle fuel node H n m Hn). lia.
  - intros Hac. exists (S (size h)). apply findCycle_acyclic_false; [done|lia].
Qed.

(** X2: an answer [true] always comes from a node that lists itself in its
    own [observing]: some node reachable from the candidate (the candidate
    included) is its own dependency, so the graph below the candidate is
    not free of cycles. Whether the needle is reachable is not implied. *)
Theorem findCycle_true_means_self_listing (fuel : nat) (h : gmap loc IDerivation) (needle node : loc) :
  findCycle fuel h needle node = Some true ->
  (∃ m, rtc (edge h) node m ∧ edge h m m) ∧ ¬ acyclicFrom h node.
Proof.
  intros H. destruct (findCycle_true_self_listed h needle fuel node H) as (m & Hreach & Hself).
  split; [by exists m|]. intros Hac. apply (Hac m Hreach). by apply tc_once.
Qed.

Lemma findCycle_true_means_self_listing_witness :
  (∃ m, rtc (edge h_loop) 2%nat m ∧ edge h_loop m m) ∧ ¬ acyclicFrom h_loop 2.
Proof.
  apply (findCycle_true_means_self_listing 1 h_loop 0 2). reflexivity.
Defined.

(** X3: the answer of [findCycle] does not depend on the needle: two calls
    that differ only in the needle give the same result at every depth. *)
Theorem findCycle_answer_independent_of_needle
    (fuel : nat) (h : gmap loc IDerivation) (needle needle' node : loc) :
  findCycle fuel h needle node = findCycle fuel h needle' node.
Proof. apply findCycle_needle_irrelevant. Qed.

(** X4: when a cycle can be reached from the candidate but no reachable
    node lists itself, [findCycle] gives no answer at any recursion depth:
    it neither returns [true] nor [false]. *)
Theorem findCycle_no_answer_on_longer_cycle (h : gmap loc IDerivation) (needle node : loc) :
  (∃ m, rtc (edge h) node m ∧ tc (edge h) m m) ->
  (∀ m, rtc (edge h) node m -> ¬ edge h m m) ->
  ∀ fuel, findCycle fuel h needle node = None.
Proof.
  intros (m & Hreach & Hcyc) Hnoself fuel.
  destruct (findCycle fuel h needle node) as [[]|] eqn:E; [| |done].
  - destruct (findCycle_true_self_listed h needle fuel node E) as (x & Hx & Hself).
    by destruct (Hnoself x Hx).
  - destruct (cycle_gives_long_paths h node m Hreach Hcyc fuel) as (n & Hle & Hn).
    pose proof (findCycle_false_bounds_paths h needle fuel node E n m Hn). lia.
Qed.

Lemma h_two_cycle_no_self_listing m : ¬ edge h_two_cycle m m.
Proof.
  intros (obs & Hobs & Hin). unfold h_two_cycle in Hobs.
  destruct (decide (m = 0%nat)) as [->|N0].
  { vm_compute in Hobs. injection Hobs as <-. by apply list_elem_of_singleton in Hin. }
  destruct (decide (m = 1%nat)) as [->|N1].
  { vm_compute in Hobs. injection Hobs as <-. by apply list_elem_of_singleton in Hin. }
  rewrite lookup_total_insert_ne, lookup_total_singleton_ne in Hobs by done. done.
Qed.

Lemma findCycle_no_answer_on_longer_cycle_witness :
  findCycle 1000 h_two_cycle 0 1 = None.
Proof.
  generalize 1000%nat. apply (findCycle_no_answer_on_longer_cycle h_two_cycle 0 1).
  - exists 1%nat. split; [done|].
    eapply tc_l; [|apply tc_once].
    + exists [0%nat]. split; [reflexivity|]. by apply list_elem_of_singleton.
    + exists [1%nat]. split; [reflexivity|]. by apply list_elem_of_singleton.
  - intros m _. apply h_two_cycle_no_self_listing.
Defined.

(** ** The counters under the protocol *)

Lemma changeCount_after_stale d d' w :
  changeCount (exec (notifyDependencyStale d) w) d' = changeCount w d'.
Proof.
  unfold exec. rewrite notifyDependencyStale_run. unfold changeCount. cbn.
  destruct (decide (d = d')) as [->|N].
  - by rewrite lookup_total_insert_eq.
  - by rewrite lookup_total_insert_ne.
Qed.

Lemma changeCount_after_ready d d' (b : bool) w :
  changeCount (exec (notifyDependencyReady d b) w) d' =
  if decide (d = d') then
    if 0 <? staleCount w d then
      if (staleCount w d =? 1) && (0 <? changeCount w d + (if b then 1 else 0)) then 0
      else changeCount w d + (if b then 1 else 0)
    else changeCount w d
  else changeCount w d'.
Proof.
  unfold exec.
  destruct (Z.ltb_spec 0 (staleCount w d)) as [Hpos|Hneg].
  - destruct (Z.eqb_spec (staleCount w d) 1) as [H1|H1]; cbn.
    + destruct (Z.ltb_spec 0 (changeCount w d + (if b then 1 else 0))).
      * rewrite notifyDependencyReady_changed by done. unfold changeCount, counted. cbn.
        case_decide; subst; [by rewrite lookup_total_insert_eq | by rewrite lookup_total_insert_ne].
      * rewrite notifyDependencyReady_unchanged by done. unfold changeCount, counted. cbn.
        case_decide; subst; [|by rewrite lookup_total_insert_ne].
        rewrite lookup_total_insert_eq. destruct b; cbn; lia.
    + rewrite notifyDependencyReady_waiting by lia. unfold changeCount, counted. cbn.
      case_decide; subst; [|by rewrite lookup_total_insert_ne].
      rewrite lookup_total_insert_eq. destruct b; cbn; lia.
  - rewrite notifyDependencyReady_underflow by done. cbn. by case_decide; subst.
Qed.

Lemma perform_keeps_consistent c w :
  countersConsistent w -> countersConsistent (exec (perform c) w).
Proof.
  intros Hw d'. destruct (Hw d') as (Hs' & Hc' & Hz').
  destruct c as [d|d b]; cbn.
  - rewrite staleCount_after_stale, changeCount_after_stale.
    case_decide; subst; repeat split; try done; lia.
  - rewrite staleCount_after_ready, changeCount_after_ready.
    case_decide as Hd; [subst d'|done].
    destruct (Z.ltb_spec 0 (staleCount w d)); [|done].
    destruct (Z.eqb_spec (staleCount w d) 1); cbn.
    + destruct (Z.ltb_spec 0 (changeCount w d + (if b then 1 else 0)));
        repeat split; try lia; destruct b; lia.
    + repeat split; try lia; destruct b; lia.
Qed.

Lemma performAll_keeps_consistent cs w :
  countersConsistent w -> countersConsistent (performAll cs w).
Proof.
  revert w. induction cs as [|c cs IH]; intros w Hw; cbn; [done|].
  apply IH. by apply perform_keeps_consistent.
Qed.

(** X6: the protocol keeps the counters consistent: from a state in which
    every stale count and change count is non-negative and every
    derivation with stale count 0 has change count 0, any sequence of stale
    and ready calls, throwing ones included, leads to such a state again.
    So each wave starts from a change count of 0. *)
Theorem protocol_keeps_counters_consistent (cs : list call) (w : world) :
  countersConsistent w -> countersConsistent (performAll cs w).
Proof. apply performAll_keeps_consistent. Qed.

Lemma w_two_sources_consistent : countersConsistent w_two_sources.
Proof.
  intros d. unfold staleCount, changeCount, w_two_sources. cbn.
  destruct (decide (d = 3%nat)) as [->|Hd].
  - by rewrite lookup_total_singleton_eq.
  - by rewrite lookup_total_singleton_ne.
Qed.

Lemma protocol_keeps_counters_consistent_witness :
  0 <= changeCount
         (performAll [Stale 3; Ready 3 true; Ready 3 true; Stale 3; Stale 3; Ready 3 false]
            w_two_sources) 3.
Proof.
  apply (protocol_keeps_counters_consistent
           [Stale 3; Ready 3 true; Ready 3 true; Stale 3; Stale 3; Ready 3 false]
           w_two_sources w_two_sources_consistent 3%nat).
Defined.

(** ** What a protocol call touches *)

Lemma trace_after_stale d w :
  trace (exec (notifyDependencyStale d) w) =
  trace w ++ (if staleCount w d =? 0
              then [ReportTransition d "STALE" None; PropagateStaleness d]
              else []).
Proof. unfold exec. by rewrite notifyDependencyStale_run. Qed.

Lemma trace_after_ready d (b : bool) w :
  trace (exec (notifyDependencyReady d b) w) =
  trace w ++
    (if staleCount w d =? 1 then
       if 0 <? changeCount w d + (if b then 1 else 0) then
         [ReportTransition d "PENDING" None; OnDependenciesReady d;
          PropagateReadiness d
            (onDependenciesReady (heap w !!! d)
               (trace w ++ [ReportTransition d "PENDING" None]))]
       else [ReportTransition d "READY" (Some false); PropagateReadiness d false]
     else []).
Proof.
  unfold exec.
  destruct (Z.eqb_spec (staleCount w d) 1) as [H1|H1].
  - destruct (Z.ltb_spec 0 (changeCount w d + (if b then 1 else 0))).
    + by rewrite notifyDependencyReady_changed.
    + by rewrite notifyDependencyReady_unchanged.
  - destruct (Z.ltb_spec 0 (staleCount w d)).
    + rewrite notifyDependencyReady_waiting by lia. cbn. by rewrite app_nil_r.
    + rewrite notifyDependencyReady_underflow by lia. cbn. by rewrite app_nil_r.
Qed.

(** A call either leaves the state as it is or rewrites the counters of
    its target and appends to the trace. *)
Lemma perform_shape c w :
  exec (perform c) w = w
  ∨ ∃ n', exec (perform c) w =
            mkWorld (<[target c := n']> (heap w)) (derivationStack w)
                    (allowStateChanges w) (trace (exec (perform c) w))
          ∧ observing n' = observing (heap w !!! target c)
          ∧ onDependenciesReady n' = onDependenciesReady (heap w !!! target c).
Proof.
  destruct c as [d|d b]; cbn.
  - right. unfold exec. rewrite notifyDependencyStale_run. cbn. eexists. split; [done|]. done.
  - destruct (Z.ltb_spec 0 (staleCount w d)) as [Hpos|Hneg].
    + right. unfold exec. destruct (decide (staleCount w d = 1)) as [H1|H1].
      * destruct (Z.ltb_spec 0 (changeCount w d + (if b then 1 else 0))).
        -- rewrite notifyDependencyReady_changed by done. cbn. eexists.
           split; [done|]. by destruct b.
        -- rewrite notifyDependencyReady_unchanged by done. cbn. eexists.
           split; [done|]. by destruct b.
      * rewrite notifyDependencyReady_waiting by lia. cbn. eexists.
        split; [done|]. by destruct b.
    + left. unfold exec. by rewrite notifyDependencyReady_underflow.
Qed.

Lemma trace_after_perform c w :
  ∃ es, trace (exec (perform c) w) = trace w ++ es
        ∧ Forall (λ e, subject e = target c ∧ isEdgeEvent e = false) es.
Proof.
  destruct c as [d|d b]; cbn.
  - rewrite trace_after_stale. eexists. split; [done|].
    destruct (staleCount w d =? 0); repeat constructor.
  - rewrite trace_after_ready. eexists. split; [done|].
    destruct (staleCount w d =? 1); [|constructor].
    destruct (0 <? _); repeat constructor.
Qed.


Lemma perform_frame c w :
  derivationStack (exec (perform c) w) = derivationStack w
  ∧ allowStateChanges (exec (perform c) w) = allowStateChanges w
  ∧ (∀ d, observing (heap (exec (perform c) w) !!! d) = observing (heap w !!! d))
  ∧ (∀ d, d ≠ target c -> heap (exec (perform c) w) !!! d = heap w !!! d).
Proof.
  destruct (perform_shape c w) as [Hsame|(n' & Hw' & Hobs & _)].
  - by rewrite Hsame.
  - rewrite Hw'. cbn. repeat split; try done.
    + intros d. destruct (decide (target c = d)) as [<-|N].
      * by rewrite lookup_total_insert_eq.
      * by rewrite lookup_total_insert_ne.
    + intros d N. by rewrite lookup_total_insert_ne.
Qed.

Lemma method_after_perform c w d :
  onDependenciesReady (heap (exec (perform c) w) !!! d) = onDependenciesReady (heap w !!! d).
Proof.
  destruct (perform_shape c w) as [Hsame|(n' & Hw' & _ & Hm)].
  - by rewrite Hsame.
  - rewrite Hw'. cbn. destruct (decide (target c = d)) as [<-|N].
    + by rewrite lookup_total_insert_eq.
    + by rewrite lookup_total_insert_ne.
Qed.

(** X9: a stale call directly followed by a ready call, on a derivation
    that is already waiting for some dependency, cancels out: the stale
    count is what it was, the change count has grown by one exactly if the
    ready call reported a change, nothing is added to the trace and no
    other object is touched. *)
Theorem stale_then_ready_mid_wave (d : loc) (b : bool) (w : world) :
  0 < staleCount w d ->
  let w' := performAll [Stale d; Ready d b] w in
  staleCount w' d = staleCount w d
  ∧ changeCount w' d = changeCount w d + (if b then 1 else 0)
  ∧ trace w' = trace w
  ∧ derivationStack w' = derivationStack w
  ∧ (∀ d', d' ≠ d -> heap w' !!! d' = heap w !!! d')
  ∧ (∀ d', observing (heap w' !!! d') = observing (heap w !!! d')).
Proof.
  intros Hpos. cbn.
  set (w1 := exec (notifyDependencyStale d) w).
  assert (S1 : staleCount w1 d = staleCount w d + 1)
    by (unfold w1; by rewrite staleCount_after_stale, decide_True).
  assert (C1 : changeCount w1 d = changeCount w d)
    by (unfold w1; by rewrite changeCount_after_stale).
  assert (T1 : trace w1 = trace w).
  { unfold w1. rewrite trace_after_stale.
    destruct (Z.eqb_spec (staleCount w d) 0); [lia|]. by rewrite app_nil_r. }
  pose proof (perform_frame (Stale d) w) as (K1 & _ & O1 & F1).
  pose proof (perform_frame (Ready d b) w1) as (K2 & _ & O2 & F2).
  cbn in *. fold w1 in K1, O1, F1.
  split.
  { rewrite staleCount_after_ready, decide_True by done. rewrite S1.
    destruct (Z.ltb_spec 0 (staleCount w d + 1)); lia. }
  split.
  { rewrite changeCount_after_ready, decide_True by done. rewrite S1, C1.
    destruct (Z.ltb_spec 0 (staleCount w d + 1)); [|lia].
    destruct (Z.eqb_spec (staleCount w d + 1) 1); [lia|]. done. }
  split.
  { rewrite trace_after_ready, S1, T1.
    destruct (Z.eqb_spec (staleCount w d + 1) 1); [lia|]. by rewrite app_nil_r. }
  split; [by rewrite K2, K1|].
  split.
  - intros d' N. by rewrite F2, F1.
  - intros d'. by rewrite O2, O1.
Qed.

Lemma stale_then_ready_mid_wave_witness :
  staleCount (performAll [Stale 7; Ready 7 false] w_ready_unchanged) 7
    = staleCount w_ready_unchanged 7
  ∧ trace (performAll [Stale 7; Ready 7 false] w_ready_unchanged) = trace w_ready_unchanged.
Proof.
  destruct (stale_then_ready_mid_wave 7 false w_ready_unchanged) as (H1 & _ & H2 & _).
  - reflexivity.
  - split; [exact H1|exact H2].
Defined.

(** ** Waves of any width *)

Lemma performAll_app cs cs' w :
  performAll (cs ++ cs') w = performAll cs' (performAll cs w).
Proof. unfold performAll. apply foldl_app. Qed.

Lemma performAll_cons c cs w :
  performAll (c :: cs) w = performAll cs (exec (perform c) w).
Proof. reflexivity. Qed.

Lemma method_after_performAll cs w d :
  onDependenciesReady (heap (performAll cs w) !!! d) = onDependenciesReady (heap w !!! d).
Proof.
  revert w. induction cs as [|c cs IH]; intros w; [done|].
  by rewrite performAll_cons, IH, method_after_perform.
Qed.

(** Stale calls on a derivation whose stale count is not negative. *)
Lemma stales_run d n w :
  0 <= staleCount w d ->
  let w' := performAll (replicate n (Stale d)) w in
  staleCount w' d = staleCount w d + Z.of_nat n
  ∧ changeCount w' d = changeCount w d
  ∧ trace w' = trace w ++
      (if bool_decide (n ≠ 0%nat) && (staleCount w d =? 0)
       then [ReportTransition d "STALE" None; PropagateStaleness d]
       else []).
Proof.
  revert w. induction n as [|n IH]; intros w Hs; cbn zeta.
  { cbn. repeat split; [lia|by rewrite app_nil_r]. }
  set (w1 := exec (notifyDependencyStale d) w).
  assert (S1 : staleCount w1 d = staleCount w d + 1)
    by (unfold w1; by rewrite staleCount_after_stale, decide_True).
  destruct (IH w1) as (IHs & IHc & IHt); [lia|].
  cbn zeta in IHs, IHc, IHt.
  change (performAll (replicate (S n) (Stale d)) w)
    with (performAll (replicate n (Stale d)) w1).
  rewrite IHs, IHc, IHt, S1. unfold w1.
  rewrite changeCount_after_stale, trace_after_stale.
  repeat split; [lia|].
  destruct (Z.eqb_spec (staleCount w d + 1) 0); [lia|].
  rewrite andb_false_r, app_nil_r. done.
Qed.

(** As many ready calls as dependencies are awaited. *)
Lemma readies_run d bs :
  ∀ w,
    bs ≠ [] ->
    staleCount w d = Z.of_nat (length bs) ->
    0 <= changeCount w d ->
    let w' := performAll (map (Ready d) bs) w in
    staleCount w' d = 0
    ∧ changeCount w' d = 0
    ∧ trace w' = trace w ++
        (if (0 <? changeCount w d) || existsb id bs then
           [ReportTransition d "PENDING" None; OnDependenciesReady d;
            PropagateReadiness d
              (onDependenciesReady (heap w !!! d)
                 (trace w ++ [ReportTransition d "PENDING" None]))]
         else [ReportTransition d "READY" (Some false); PropagateReadiness d false]).
Proof.
  induction bs as [|b bs IH]; intros w Hne Hs Hc; [done|].
  destruct bs as [|b' bs].
  - (* the last awaited dependency *)
    assert (Hs1 : staleCount w d = 1) by (by rewrite Hs).
    cbn zeta.
    change (performAll (map (Ready d) [b]) w) with (exec (notifyDependencyReady d b) w).
    rewrite staleCount_after_ready, changeCount_after_ready, trace_after_ready,
      !decide_True by done.
    rewrite Hs1. change (0 <? 1) with true. change (1 =? 1) with true.
    cbn [existsb id andb]. rewrite orb_false_r.
    assert (Hdec : (0 <? changeCount w d + (if b then 1 else 0)) = (0 <? changeCount w d) || b).
    { destruct b; [|by rewrite Z.add_0_r, orb_false_r].
      rewrite orb_true_r. apply Z.ltb_lt. lia. }
    rewrite <- Hdec.
    destruct (Z.ltb_spec 0 (changeCount w d + (if b then 1 else 0))) as [E|E];
      repeat split; try done.
    destruct b; lia.
  - (* more dependencies are awaited *)
    set (w1 := exec (notifyDependencyReady d b) w).
    assert (Hlen : 1 < staleCount w d) by (rewrite Hs; cbn; lia).
    assert (S1 : staleCount w1 d = Z.of_nat (length (b' :: bs))).
    { unfold w1. rewrite staleCount_after_ready, decide_True by done.
      destruct (Z.ltb_spec 0 (staleCount w d)); [|lia]. rewrite Hs. cbn [length]. lia. }
    assert (C1 : changeCount w1 d = changeCount w d + (if b then 1 else 0)).
    { unfold w1. rewrite changeCount_after_ready, decide_True by done.
      destruct (Z.ltb_spec 0 (staleCount w d)); [|lia].
      destruct (Z.eqb_spec (staleCount w d) 1); [lia|]. done. }
    assert (T1 : trace w1 = trace w).
    { unfold w1. rewrite trace_after_ready.
      destruct (Z.eqb_spec (staleCount w d) 1); [lia|]. by rewrite app_nil_r. }
    assert (M1 : onDependenciesReady (heap w1 !!! d) = onDependenciesReady (heap w !!! d))
      by apply (method_after_perform (Ready d b)).
    destruct (IH w1) as (IHs & IHc & IHt); [done|done|destruct b; lia|].
    cbn zeta in IHs, IHc, IHt. cbn zeta.
    change (performAll (map (Ready d) (b :: b' :: bs)) w)
      with (performAll (map (Ready d) (b' :: bs)) w1).
    rewrite IHs, IHc, IHt, T1, M1, C1.
    repeat split.
    replace ((0 <? changeCount w d + (if b then 1 else 0)) || existsb id (b' :: bs))
      with ((0 <? changeCount w d) || existsb id (b :: b' :: bs)); [done|].
    cbn [existsb]. destruct b; cbn [id].
    + destruct (Z.ltb_spec 0 (changeCount w d + 1)); [|lia]. cbn. by rewrite orb_true_r.
    + by rewrite Z.add_0_r.
Qed.

(** X8: a wave of any width is coalesced. A derivation with both counters
    at 0 gets one stale call per dependency and then one ready call per
    dependency, each saying whether that dependency changed. Both counters
    are back at 0 afterwards; "STALE" is reported and staleness propagated
    once, at the first stale call; then, only at the last ready call, the
    body is run once and readiness propagated with its answer if at least
    one dependency changed, and otherwise "READY" with changed = false is
    reported and propagated without running the body. *)
Theorem wave_coalesced (d : loc) (bs : list bool) (w : world) :
  bs ≠ [] ->
  staleCount w d = 0 ->
  changeCount w d = 0 ->
  let w' := performAll (replicate (length bs) (Stale d) ++ map (Ready d) bs) w in
  let stale := [ReportTransition d "STALE" None; PropagateStaleness d] in
  staleCount w' d = 0
  ∧ changeCount w' d = 0
  ∧ emitted w w' =
      stale ++
      (if existsb id bs then
         [ReportTransition d "PENDING" None; OnDependenciesReady d;
          PropagateReadiness d
            (onDependenciesReady (heap w !!! d)
               (trace w ++ stale ++ [ReportTransition d "PENDING" None]))]
       else [ReportTransition d "READY" (Some false); PropagateReadiness d false])
  ∧ count (isBodyRun d) (emitted w w') = (if existsb id bs then 1 else 0)%nat.
Proof.
  intros Hne Hs Hc. cbn zeta. rewrite performAll_app.
  destruct (stales_run d (length bs) w) as (S1 & C1 & T1); [lia|].
  cbn zeta in S1, C1, T1.
  set (w1 := performAll (replicate (length bs) (Stale d)) w) in *.
  assert (Hn : bool_decide (length bs ≠ 0%nat) = true).
  { apply bool_decide_eq_true. by destruct bs. }
  rewrite Hn, Hs in T1. cbn in T1.
  destruct (readies_run d bs w1) as (S2 & C2 & T2); [done|lia|lia|].
  cbn zeta in S2, C2, T2.
  assert (M1 : onDependenciesReady (heap w1 !!! d) = onDependenciesReady (heap w !!! d))
    by apply method_after_performAll.
  rewrite C1, Hc, M1, T1 in T2. cbn [Z.ltb Z.compare orb] in T2.
  assert (Em : emitted w (performAll (map (Ready d) bs) w1) =
    [ReportTransition d "STALE" None; PropagateStaleness d] ++
      (if existsb id bs then
         [ReportTransition d "PENDING" None; OnDependenciesReady d;
          PropagateReadiness d
            (onDependenciesReady (heap w !!! d)
               (trace w ++ [ReportTransition d "STALE" None; PropagateStaleness d]
                        ++ [ReportTransition d "PENDING" None]))]
       else [ReportTransition d "READY" (Some false); PropagateReadiness d false])).
  { apply emitted_app. rewrite T2, <- !app_assoc. done. }
  split; [done|]. split; [done|]. split; [done|].
  rewrite Em. unfold count. destruct (existsb id bs); cbn; by rewrite ?Nat.eqb_refl.
Qed.

Lemma wave_coalesced_witness :
  count (isBodyRun 3)
    (emitted w_two_sources
       (performAll [Stale 3; Stale 3; Stale 3; Ready 3 false; Ready 3 true; Ready 3 false]
          w_two_sources)) = 1%nat.
Proof.
  apply (wave_coalesced 3 [false; true; false] w_two_sources); [discriminate|reflexivity|reflexivity].
Defined.

(** ** No recomputation without a reported change *)

Lemma count_app p l l' : count p (l ++ l') = (count p l + count p l')%nat.
Proof. unfold count. by rewrite List.filter_app, length_app. Qed.

Lemma changedCalls_cons d c cs :
  changedCalls d (c :: cs) = (changedCalls d [c] + changedCalls d cs)%nat.
Proof.
  unfold changedCalls. cbn.
  destruct c as [d0|d0 [|]]; cbn; try done. by destruct (Nat.eqb d0 d).
Qed.

(** Body runs so far plus changes counted so far never grow by more than
    the changes the call reports. *)
Lemma perform_body_budget c d w :
  Z.of_nat (count (isBodyRun d) (trace (exec (perform c) w)))
    + changeCount (exec (perform c) w) d
  <= Z.of_nat (count (isBodyRun d) (trace w)) + changeCount w d
     + Z.of_nat (changedCalls d [c]).
Proof.
  destruct c as [d0|d0 b]; cbn [perform].
  - rewrite trace_after_stale, changeCount_after_stale, count_app.
    destruct (staleCount w d0 =? 0); cbn; lia.
  - rewrite trace_after_ready, changeCount_after_ready, count_app.
    destruct (decide (d0 = d)) as [->|N].
    + assert (Hcalls : Z.of_nat (changedCalls d [Ready d b]) = if b then 1 else 0).
      { unfold changedCalls. cbn. destruct b; cbn; by rewrite ?Nat.eqb_refl. }
      rewrite Hcalls.
      destruct (Z.ltb_spec 0 (staleCount w d)) as [Hpos|Hneg].
      * destruct (Z.eqb_spec (staleCount w d) 1) as [H1|H1]; cbn [andb].
        -- destruct (Z.ltb_spec 0 (changeCount w d + (if b then 1 else 0))).
           ++ unfold count. cbn. rewrite Nat.eqb_refl. cbn. lia.
           ++ unfold count. cbn. lia.
        -- unfold count. cbn. lia.
      * destruct (Z.eqb_spec (staleCount w d) 1); [lia|]. unfold count. cbn. destruct b; lia.
    + assert (Hne : Nat.eqb d0 d = false) by (by apply Nat.eqb_neq).
      destruct (staleCount w d0 =? 1); [|unfold count; cbn; lia].
      destruct (0 <? _); unfold count; cbn; rewrite ?Hne; cbn; lia.
Qed.

Lemma performAll_body_budget cs d w :
  Z.of_nat (count (isBodyRun d) (trace (performAll cs w)))
    + changeCount (performAll cs w) d
  <= Z.of_nat (count (isBodyRun d) (trace w)) + changeCount w d
     + Z.of_nat (changedCalls d cs).
Proof.
  revert w. induction cs as [|c cs IH]; intros w.
  - cbn. unfold changedCalls. cbn. lia.
  - rewrite performAll_cons, changedCalls_cons.
    specialize (IH (exec (perform c) w)).
    pose proof (perform_body_budget c d w). lia.
Qed.

Lemma trace_after_performAll cs w :
  ∃ es, trace (performAll cs w) = trace w ++ es.
Proof.
  revert w. induction cs as [|c cs IH]; intros w.
  - exists []. cbn. by rewrite app_nil_r.
  - rewrite performAll_cons. destruct (IH (exec (perform c) w)) as (es & Hes).
    destruct (trace_after_perform c w) as (es0 & Hes0 & _).
    exists (es0 ++ es). by rewrite Hes, Hes0, <- app_assoc.
Qed.

(** X10: the body never runs more often than changes were reported. From
    a consistent state in which the derivation awaits nothing, over any
    sequence of stale and ready calls on any derivations, the number of
    times the body of [d] is run is at most the number of ready calls on
    [d] made with [dependencyDidChange] true. *)
Theorem body_runs_bounded_by_changes (cs : list call) (d : loc) (w : world) :
  countersConsistent w ->
  staleCount w d = 0 ->
  (count (isBodyRun d) (emitted w (performAll cs w)) <= changedCalls d cs)%nat.
Proof.
  intros Hw Hs.
  destruct (trace_after_performAll cs w) as (es & Hes).
  rewrite (emitted_app _ _ _ Hes).
  pose proof (performAll_body_budget cs d w) as Hbudget.
  rewrite Hes, count_app in Hbudget.
  destruct (Hw d) as (_ & _ & Hz).
  destruct (performAll_keeps_consistent cs w Hw d) as (_ & Hc' & _).
  specialize (Hz Hs). lia.
Qed.

Lemma body_runs_bounded_by_changes_witness :
  (count (isBodyRun 3)
     (emitted w_two_sources
        (performAll [Stale 3; Ready 3 true; Stale 3; Ready 3 false; Ready 3 true] w_two_sources))
   <= changedCalls 3 [Stale 3; Ready 3 true; Stale 3; Ready 3 false; Ready 3 true])%nat.
Proof.
  apply (body_runs_bounded_by_changes _ 3 w_two_sources).
  - exact w_two_sources_consistent.
  - reflexivity.
Defined.

(** ** Binding, whatever its outcome *)



(** ** Tracking and the derivation stack *)

Lemma readSources_keepsStack d sources : keepsStack (readSources d sources).
Proof. intros w v w1 H. unfold readSources in H. unfold_M. by injection H as _ <-. Qed.

(** X11: tracking is balanced. If the body leaves the derivation stack as
    it found it whenever it returns, so does [trackDerivedFunction] of
    that body: when the tracked call returns, the stack is what it was
    before the call. Tracked calls can therefore be nested to any depth,
    and [isComputingDerivation] answers after the call what it answered
    before. *)
Theorem track_keeps_stack {T} (fuel : nat) (d : loc) (f : M T) :
  keepsStack f -> keepsStack (trackDerivedFunction fuel d f).
Proof.
  intros Hf w v w' Hrun. rewrite trackDerivedFunction_unfold in Hrun.
  destruct (f (started d w)) as [[r| |] w1] eqn:Ef; try done.
  apply Hf in Ef. cbn in Ef.
  assert (Hstack : derivationStack w1 ≠ []).
  { rewrite Ef. intros Happ. by apply app_eq_nil in Happ as [_ ?]. }
  destruct (bindDependencies_any fuel d (observing (heap w !!! d)) w1 Hstack)
    as (installed & removed & _ & _ & Hexec & _).
  unfold exec in Hexec.
  destruct (bindDependencies fuel d (observing (heap w !!! d)) w1) as [[[]| |] w2];
    try done.
  injection Hrun as _ <-. cbn in Hexec. rewrite Hexec. cbn.
  by rewrite Ef, removelast_last.
Qed.

Lemma track_keeps_stack_witness :
  derivationStack
    (exec (trackDerivedFunction 1 4 (trackDerivedFunction 1 5 (readSources 5 [2%nat; 3%nat])))
       w_conditional)
  = derivationStack w_conditional.
Proof.
  apply (track_keeps_stack 1 4 (trackDerivedFunction 1 5 (readSources 5 [2%nat; 3%nat]))
           (track_keeps_stack 1 5 _ (readSources_keepsStack 5 [2%nat; 3%nat]))
           w_conditional tt).
  reflexivity.
Defined.

(** X13: a body that throws is not cleaned up after. The tracked call
    throws the same error and ends in exactly the state the body left:
    the binding does not run, so no observer is added or removed, the
    [observing] list emptied at the start is not put back, and the
    derivation is not taken off the stack. If the body left the stack as it
    found it, the derivation stays on top of it and
    [isComputingDerivation] answers true after the call. *)
Theorem track_body_throws {T} (fuel : nat) (d : loc) (f : M T) (w w1 : world) (e : error) :
  f (started d w) = (Throw e, w1) ->
  trackDerivedFunction fuel d f w = (Throw e, w1)
  ∧ (derivationStack w1 = derivationStack (started d w) ->
     derivationStack (exec (trackDerivedFunction fuel d f) w) = derivationStack w ++ [d]
     ∧ outcome isComputingDerivation (exec (trackDerivedFunction fuel d f) w) = Normal true).
Proof.
  intros Hf.
  assert (Hrun : trackDerivedFunction fuel d f w = (Throw e, w1))
    by (by rewrite trackDerivedFunction_unfold, Hf).
  split; [done|]. intros Hstack. unfold exec, outcome. rewrite Hrun. cbn.
  rewrite Hstack. cbn. split; [done|].
  f_equal. apply bool_decide_eq_true. rewrite length_app. cbn. lia.
Qed.

Lemma track_body_throws_witness :
  trackDerivedFunction 1 5 (failingBody (RangeError "boom")) w_conditional =
    (Throw (RangeError "boom"),
     mkWorld {[ 5%nat := mkDerivation (Some []) 0 0 (λ _, true) ]} [5%nat] true [])
  ∧ outcome isComputingDerivation
      (exec (trackDerivedFunction 1 5 (failingBody (RangeError "boom"))) w_conditional)
    = Normal true.
Proof.
  destruct (track_body_throws 1 5 (failingBody (RangeError "boom")) w_conditional
              (started 5 w_conditional) (RangeError "boom") eq_refl) as [H1 H2].
  split.
  - rewrite H1. reflexivity.
  - apply H2. reflexivity.
Defined.

(** X14: tracking does not by itself forbid state changes. A tracked body
    that consists of the mutation guard throws the state-change failure
    exactly when [allowStateChanges] was already false before the tracked
    call: [trackDerivedFunction] pushes the derivation but leaves the flag
    as the caller set it. *)
Theorem guard_inside_tracking_follows_flag (fuel : nat) (d : loc) (w : world) :
  outcome (trackDerivedFunction fuel d checkIfStateModificationsAreAllowed) w
    = Throw IllegalMutation
  ↔ allowStateChanges w = false.
Proof.
  unfold outcome. rewrite trackDerivedFunction_unfold.
  unfold checkIfStateModificationsAreAllowed at 1. unfold invariant. cbn [started allowStateChanges].
  destruct (allowStateChanges w) eqn:Eflag.
  - split; [|done]. unfold_M.
    set (w1 := started d w).
    assert (Hstack : derivationStack w1 ≠ []).
    { unfold w1. cbn. intros Happ. by apply app_eq_nil in Happ as [_ ?]. }
    destruct (bindDependencies_any fuel d (observing (heap w !!! d)) w1 Hstack)
      as (installed & removed & _ & _ & _ & Hout).
    unfold outcome in Hout. fold w1.
    destruct (bindDependencies fuel d (observing (heap w !!! d)) w1) as [[[]| |] w2];
      cbn in *; try done.
    destruct Hout as [(? & _)|([?|?] & _)]; try done. simplify_eq.
    unfold CycleDetected, IllegalMutation. intros [=].
  - split; [done|]. intros _. unfold_M. done.
Qed.
